(** * convert_shp: batch conversion of shapefiles

    A shallow embedding of [convert_shp.py].  The script normalises the
    coordinate reference system of every shapefile of an input directory,
    turns orthometric heights into ellipsoidal heights ([z_fix]), renames a
    fixed set of attribute columns ([RENAME_FIELDS]) and writes the result
    under an upper-cased name into an output directory.

    Coordinates are IEEE doubles (shapely stores C doubles, pyproj returns
    Python floats), modelled by the kernel's primitive floats.  The calls
    into pyproj, geopandas and the file system are the parameters of the
    development; every call the script makes is recorded in a trace of
    events, and [sys.exit] and uncaught exceptions are outcomes. *)

From Stdlib Require Import PrimFloat ZArith Ascii String.
From stdpp Require Import base option list strings gmap.

Set Warnings "-register-all".

(** ** Geometries (shapely) *)

(** A coordinate tuple as [geom.coords] yields it: a pair for a 2D
    geometry, a triple for a geometry with a Z ordinate, four numbers for
    a geometry with a Z ordinate and a measure.  A geometry with a
    measure and no Z ordinate has no Z ordinate: it stands here with its
    pairs [(x, y)]. *)
Inductive coord : Type :=
  | XY (x y : float)
  | XYZ (x y z : float)
  | XYZM (x y z m : float).

(** Rings of a polygon: the exterior ring and the interior rings. *)
Definition rings : Type := (list coord * list (list coord))%type.

(** The geometry classes of shapely.  A [Point] is empty or has one
    coordinate; the members of a [MultiPoint] are points.  [WithZ g] is
    the geometry [g] with its coordinate sequences declared with a Z
    ordinate, whatever they hold: [WithZ (Point None)] is [POINT Z EMPTY].
    The type holds the coordinates only: what GEOS requires of a geometry
    (no line of one coordinate, a closed ring, one dimension for all
    coordinates of a line) is no part of it. *)
Inductive geometry : Type :=
  | Point (c : option coord)
  | LineString (cs : list coord)
  | LinearRing (cs : list coord)
  | Polygon (shell : list coord) (holes : list (list coord))
  | MultiPoint (pts : list (option coord))
  | MultiLineString (segs : list (list coord))
  | MultiPolygon (polys : list rings)
  | GeometryCollection (gs : list geometry)
  | WithZ (g : geometry).

Inductive geom_class : Type :=
  | CPoint | CLineString | CLinearRing | CPolygon
  | CMultiPoint | CMultiLineString | CMultiPolygon | CGeometryCollection.

Fixpoint type_of (g : geometry) : geom_class :=
  match g with
  | Point _ => CPoint
  | LineString _ => CLineString
  | LinearRing _ => CLinearRing
  | Polygon _ _ => CPolygon
  | MultiPoint _ => CMultiPoint
  | MultiLineString _ => CMultiLineString
  | MultiPolygon _ => CMultiPolygon
  | GeometryCollection _ => CGeometryCollection
  | WithZ g' => type_of g'
  end.

(** The geometry under its declarations of a Z ordinate. *)
Fixpoint strip (g : geometry) : geometry :=
  match g with
  | WithZ g' => strip g'
  | _ => g
  end.

Definition geom_class_eqb (c d : geom_class) : bool :=
  match c, d with
  | CPoint, CPoint | CLineString, CLineString | CLinearRing, CLinearRing
  | CPolygon, CPolygon | CMultiPoint, CMultiPoint
  | CMultiLineString, CMultiLineString | CMultiPolygon, CMultiPolygon
  | CGeometryCollection, CGeometryCollection => true
  | _, _ => false
  end.

(** [issubclass]: shapely declares [class LinearRing(LineString)]; the
    other classes are unrelated to one another. *)
Definition issubclass (c d : geom_class) : bool :=
  geom_class_eqb c d ||
  match c, d with
  | CLinearRing, CLineString => true
  | _, _ => false
  end.

Definition isinstance (g : geometry) (c : geom_class) : bool :=
  issubclass (type_of g) c.

(** The tuple is a triple: what [x, y, z = c] unpacks. *)
Definition is_xyz (c : coord) : bool :=
  match c with
  | XYZ _ _ _ => true
  | XY _ _ | XYZM _ _ _ _ => false
  end.

(** The coordinate carries a Z ordinate. *)
Definition coord_has_z (c : coord) : bool :=
  match c with
  | XYZ _ _ _ | XYZM _ _ _ _ => true
  | XY _ _ => false
  end.

Definition point_has_z (c : option coord) : bool :=
  from_option coord_has_z false c.

Definition point_is_xyz (c : option coord) : bool :=
  from_option is_xyz false c.

Definition rings_have_z (r : rings) : bool :=
  existsb coord_has_z r.1 || existsb (existsb coord_has_z) r.2.

(** [geom.has_z] (GEOS 3.12): the geometry is declared with a Z ordinate,
    or some coordinate of it carries one. *)
Fixpoint has_z (g : geometry) : bool :=
  match g with
  | Point c => point_has_z c
  | LineString cs | LinearRing cs => existsb coord_has_z cs
  | Polygon shell holes => rings_have_z (shell, holes)
  | MultiPoint pts => existsb point_has_z pts
  | MultiLineString segs => existsb (existsb coord_has_z) segs
  | MultiPolygon polys => existsb rings_have_z polys
  | GeometryCollection gs => existsb has_z gs
  | WithZ _ => true
  end.

(** ** Layers (geopandas) *)

(** A coordinate reference system, by what it was built from: an EPSG code
    ([CRS.from_epsg]) or the definition text stored with a file. *)
Inductive CRS : Type :=
  | EPSG (code : Z)
  | WKT (text : string).

(** A cell of an attribute column. *)
Inductive value : Type :=
  | VNone
  | VInt (n : Z)
  | VFloat (f : float)
  | VStr (s : string).

(** A [GeoDataFrame]: its CRS ([None] when the file defines none), its
    geometry column (a missing geometry is [None]) and its attribute
    columns in order, each a label with its cells. *)
Record GeoDataFrame : Type := {
  crs : option CRS;
  geometry_col : list (option geometry);
  columns : list (string * list value)
}.

(** ** Paths (pathlib) *)

(** A path is the list of its components. *)
Definition path : Type := list string.

Definition joinpath (p : path) (name : string) : path := p ++ [name].

Definition path_name (p : path) : string := List.last p "".

Fixpoint rfind (c : Ascii.ascii) (s : string) : option nat :=
  match s with
  | EmptyString => None
  | String a s' =>
      match rfind c s' with
      | Some i => Some (S i)
      | None => if Ascii.eqb a c then Some 0 else None
      end
  end.

(** [PurePath.suffix] and [PurePath.stem]: the name is split at its last
    dot, unless that dot is the first or the last character. *)
Definition split_at_dot (name : string) : option nat :=
  match rfind "."%char name with
  | Some i =>
      if bool_decide (0 < i ∧ i < String.length name - 1) then Some i else None
  | None => None
  end.

Definition path_suffix (p : path) : string :=
  let name := path_name p in
  match split_at_dot name with
  | Some i => String.substring i (String.length name - i) name
  | None => ""
  end.

Definition path_stem (p : path) : string :=
  let name := path_name p in
  match split_at_dot name with
  | Some i => String.substring 0 i name
  | None => name
  end.

(** [fnmatch] of a directory entry against the pattern [*.shp] as [glob]
    applies it on a POSIX system: the name ends in [.shp], in this case,
    and is not a hidden file. *)
Definition ends_with (suf s : string) : bool :=
  bool_decide (String.length suf ≤ String.length s) &&
  String.eqb (String.substring (String.length s - String.length suf)
                (String.length suf) s) suf.

Definition matches_shp (name : string) : bool :=
  ends_with ".shp" name && negb (String.prefix "." name).

(** [glob.has_magic]: the string holds a wildcard character. *)
Fixpoint has_magic (s : string) : bool :=
  match s with
  | EmptyString => false
  | String a s' =>
      Ascii.eqb a "*"%char || Ascii.eqb a "?"%char || Ascii.eqb a "["%char
      || has_magic s'
  end.

(** ** Events and outcomes *)

(** What the script prints on stdout: the name of the file it starts on,
    the path it has saved, the final line. *)
Inductive message : Type :=
  | MsgFile (name : string)
  | MsgSaved (p : path)
  | MsgAllDone (dir : path).

(** The calls the script makes into the file system and into pyproj. *)
Inductive event : Type :=
  | Mkdir (p : path)
  | Stdout (m : message)
  | ReadFile (p : path)
  | ToWgs84 (x y : float)
  | VShift (lon lat z : float)
  | ToFile (p : path) (gdf : GeoDataFrame).

(** The calls into pyproj. *)
Definition is_transform (e : event) : bool :=
  match e with
  | ToWgs84 _ _ | VShift _ _ _ => true
  | _ => false
  end.

(** The argument of [sys.exit]: a message, printed on stderr. *)
Inductive exit_msg : Type :=
  | NoGeoid (p : path)
  | NoShp (dir : path).

(** The exceptions the script can let escape: unpacking a tuple of the
    wrong length, indexing an empty sequence, an attribute of [None], a
    failure of the reader or of the writer, an empty part given to the
    constructor of a multi-part geometry. *)
Inductive exn : Type :=
  | ValueError
  | IndexError
  | AttributeError
  | IOError
  | EmptyPartError.

Inductive outcome (A : Type) : Type :=
  | Done (a : A)
  | SysExit (m : exit_msg)
  | Raised (e : exn).
Arguments Done {A} a.
Arguments SysExit {A} m.
Arguments Raised {A} e.

(** A computation: the events it performed, in order, and how it ended. *)
Definition M (A : Type) : Type := (list event * outcome A)%type.

Definition trace {A} (m : M A) : list event := m.1.
Definition result {A} (m : M A) : outcome A := m.2.

#[export] Instance M_ret : MRet M := λ A a, ([], Done a).

#[export] Instance M_bind : MBind M := λ A B f m,
  match m.2 with
  | Done a => let r := f a in (m.1 ++ r.1, r.2)
  | SysExit r => (m.1, SysExit r)
  | Raised e => (m.1, Raised e)
  end.

Definition emit (e : event) : M unit := ([e], Done ()).
Definition sys_exit {A} (r : exit_msg) : M A := ([], SysExit r).
Definition raise {A} (e : exn) : M A := ([], Raised e).

(** The exit status of the process: [sys.exit] with a message and an
    uncaught exception both end it with status 1. *)
Definition exit_status {A} (o : outcome A) : Z :=
  match o with
  | Done _ => 0
  | SysExit _ => 1
  | Raised _ => 1
  end.

(** A [for] loop over a list: the first [sys.exit] or exception ends it. *)
Fixpoint for_each {A} (f : A → M unit) (l : list A) : M unit :=
  match l with
  | [] => mret ()
  | x :: l' => f x ;; for_each f l'
  end.

(** ** Configuration (the constants of the script) *)

Definition RENAME_FIELDS : gmap string string :=
  list_to_map [
    ("id", "ID");
    ("linkid", "LinkID");
    ("l_linkid", "L_LinkID");
    ("r_linkid", "R_LinkID");
    ("tonodeid", "ToNodeID");
    ("fromnodeid", "FromNodeID");
    ("roadrank", "RoadRank");
    ("roadno", "RoadNo");
    ("laneno", "LaneNo");
    ("distance", "Distance");
    ("maxspeed", "MaxSpeed")
  ].

Definition TARGET_EPSG : Z := 32652.
Definition APPLY_Z_FIX : bool := true.

(** [CRS.from_epsg(TARGET_EPSG)] *)
Definition CRS_TARGET : CRS := EPSG TARGET_EPSG.

(** ** Renaming columns (pandas) *)

(** [DataFrame.rename(columns=mapping, errors="ignore")] replaces every
    label by [mapping.get(label, label)]; the cells stay where they are. *)
Definition rename_label (mapping : gmap string string) (name : string) : string :=
  default name (mapping !! name).

Definition rename {V} (record : list (string * V)) (mapping : gmap string string)
  : list (string * V) :=
  prod_map (rename_label mapping) id <$> record.

Definition rename_columns (gdf : GeoDataFrame) : GeoDataFrame :=
  {| crs := crs gdf;
     geometry_col := geometry_col gdf;
     columns := rename (columns gdf) RENAME_FIELDS |}.

(** [gdf["geometry"] = col] *)
Definition set_geometry (gdf : GeoDataFrame) (col : list (option geometry))
  : GeoDataFrame :=
  {| crs := crs gdf; geometry_col := col; columns := columns gdf |}.

(** [gdf.set_crs(c, inplace=True)]: the CRS is assigned, no coordinate is
    touched. *)
Definition set_crs (gdf : GeoDataFrame) (c : CRS) : GeoDataFrame :=
  {| crs := Some c; geometry_col := geometry_col gdf; columns := columns gdf |}.

(** The feature at a row: its geometry and its attribute record. *)
Definition record_at (gdf : GeoDataFrame) (i : nat) : list (string * option value) :=
  prod_map id (λ cells : list value, cells !! i) <$> columns gdf.

(** ** The environment of a run *)

(** What the file system holds when the script starts: whether the geoid
    grid is at [GTX_PATH], the entries of a directory in listing order
    (none when there is no such directory), the directories that a path
    with wildcard characters, read as a pattern, matches, what reading a
    path yields ([None]: the reader raises) and whether writing a path
    fails. *)
Record world : Type := {
  gtx_exists : bool;
  listdir : path → list string;
  glob_dirs : path → list path;
  read_file : path → option GeoDataFrame;
  write_fails : path → bool
}.

(** ** Reading a geometry: parts and coordinates *)

(** The coordinate sequences of a geometry of a supported class, part by
    part: one for a point or a line, one per member for a multi-part. *)
Fixpoint parts (g : geometry) : list (list coord) :=
  match g with
  | Point c => [option_list c]
  | LineString cs | LinearRing cs => [cs]
  | MultiPoint pts => option_list <$> pts
  | MultiLineString segs => segs
  | WithZ g' => parts g'
  | _ => []
  end.

Definition coord_at (g : geometry) (i j : nat) : option coord :=
  parts g !! i ≫= (.!! j).

(** The number of coordinates of each part. *)
Definition part_lengths (g : geometry) : list nat :=
  (λ cs : list coord, length cs) <$> parts g.

(** Every point of the geometry is a triple: no pair and no tuple of
    four among its coordinates, and no empty point, alone or as a member
    of a [MultiPoint]. *)
Fixpoint all_xyz (g : geometry) : bool :=
  match g with
  | Point c => point_is_xyz c
  | LineString cs | LinearRing cs => forallb is_xyz cs
  | Polygon shell holes => forallb is_xyz shell && forallb (forallb is_xyz) holes
  | MultiPoint pts => forallb point_is_xyz pts
  | MultiLineString segs => forallb (forallb is_xyz) segs
  | MultiPolygon polys =>
      forallb (λ r : rings, forallb is_xyz r.1 && forallb (forallb is_xyz) r.2) polys
  | GeometryCollection gs => forallb all_xyz gs
  | WithZ g' => all_xyz g'
  end.

Definition no_coords (cs : list coord) : bool :=
  match cs with
  | [] => true
  | _ :: _ => false
  end.

(** No part of a [MultiLineString] is an empty line. *)
Definition no_empty_line (g : geometry) : bool :=
  match strip g with
  | MultiLineString segs => negb (existsb no_coords segs)
  | _ => true
  end.

(** The four classes [z_fix] names. *)
Definition supported_class (c : geom_class) : bool :=
  match c with
  | CPoint | CLineString | CMultiPoint | CMultiLineString => true
  | _ => false
  end.

(** [geom] passes one of the four [isinstance] tests of [z_fix]. *)
Definition handled (geom : geometry) : bool :=
  isinstance geom CPoint || isinstance geom CLineString
  || isinstance geom CMultiPoint || isinstance geom CMultiLineString.

(** ** Reading a trace *)

(** The paths written and the paths read in a run, in order. *)
Definition written_paths (tr : list event) : list path :=
  omap (λ e, match e with ToFile p _ => Some p | _ => None end) tr.

Definition read_paths (tr : list event) : list path :=
  omap (λ e, match e with ReadFile p => Some p | _ => None end) tr.

(** ** Sample data *)

Definition sample_to_wgs84 (x y : float) : float * float :=
  ((x / 2048)%float, (y / 131072)%float).

Definition sample_vshift (lon lat z : float) : float * float * float :=
  (lon, lat, (z + (lon + lat) / 8)%float).

Definition sample_crs_eq (a b : CRS) : bool :=
  match a, b with
  | EPSG m, EPSG n => Z.eqb m n
  | WKT s, WKT t => String.eqb s t
  | _, _ => false
  end.

Definition shift_coord (dx dy : float) (c : coord) : coord :=
  match c with
  | XY x y => XY (x + dx) (y + dy)
  | XYZ x y z => XYZ (x + dx) (y + dy) z
  | XYZM x y z m => XYZM (x + dx) (y + dy) z m
  end.

Definition sample_transform (src dst : CRS) (g : geometry) : geometry :=
  match g with
  | Point c => Point (shift_coord 500000 0 <$> c)
  | LineString cs => LineString (shift_coord 500000 0 <$> cs)
  | _ => g
  end.

Fixpoint ascii_upper (s : string) : string :=
  match s with
  | EmptyString => EmptyString
  | String a s' =>
      let n := nat_of_ascii a in
      String (if bool_decide (97 ≤ n ∧ n ≤ 122) then ascii_of_nat (n - 32) else a)
             (ascii_upper s')
  end.

Definition sample_dir : path := ["home"; "gis"].

Definition sample_line : geometry :=
  LineString [XYZ 260096 4980736 10; XYZ 262144 5111808 12.5].

Definition sample_polygon : geometry :=
  Polygon [XYZ 0 0 5; XYZ 1 0 5; XYZ 1 1 5; XYZ 0 0 5] [].

Definition sample_flat : geometry :=
  MultiPoint [Some (XY 1 2); Some (XY 3 4)].

Definition sample_record : list (string * value) :=
  [("l_linkid", VStr "A1"); ("Name", VStr "n")].

Definition sample_gdf : GeoDataFrame :=
  {| crs := None;
     geometry_col := [Some sample_line];
     columns := [("l_linkid", [VStr "A1"]); ("Name", [VStr "n"])] |}.

Definition sample_gdf_wkt : GeoDataFrame :=
  {| crs := Some (WKT "local");
     geometry_col := [Some sample_line; None];
     columns := [("id", [VInt 1; VInt 2])] |}.

Definition sample_gdf_target : GeoDataFrame :=
  set_crs sample_gdf CRS_TARGET.

Definition sample_world : world :=
  {| gtx_exists := true;
     listdir := λ _, ["roads.shp"; "notes.txt"; "a.b.shp"];
     glob_dirs := λ _, [];
     read_file := λ _, Some sample_gdf;
     write_fails := λ _, false |}.

Definition empty_world : world :=
  {| gtx_exists := true;
     listdir := λ _, ["notes.txt"; ".shp"];
     glob_dirs := λ _, [];
     read_file := λ _, Some sample_gdf;
     write_fails := λ _, false |}.

Definition gridless_world : world :=
  {| gtx_exists := false;
     listdir := λ _, ["roads.shp"];
     glob_dirs := λ _, [];
     read_file := λ _, Some sample_gdf;
     write_fails := λ _, false |}.

(** The layer written for [sample_gdf]. *)
Definition sample_written : GeoDataFrame :=
  {| crs := Some (EPSG 32652);
     geometry_col :=
       [Some (LineString [XYZ 260096 4980736 30.625;
                          XYZ 262144 5111808 33.375])];
     columns := [("L_LinkID", [VStr "A1"]); ("Name", [VStr "n"])] |}.

(** A line and an empty line. *)
Definition sample_gap : geometry :=
  MultiLineString [[XYZ 260096 4980736 10; XYZ 262144 5111808 12.5]; []].

(** A layer with a column [id] and a column [ID]. *)
Definition sample_gdf_twin : GeoDataFrame :=
  {| crs := Some (EPSG 32652);
     geometry_col := [Some sample_flat];
     columns := [("id", [VInt 1]); ("ID", [VInt 2])] |}.

(** A script directory whose name has a wildcard character, and a file
    system where, as a pattern, it matches another directory. *)
Definition bracket_dir : path := ["home"; "gis[1]"].

Definition bracket_world : world :=
  {| gtx_exists := true;
     listdir := λ d, if bool_decide (d = ["home"; "gis1"; "shp_input"])
                     then ["other.shp"] else ["roads.shp"];
     glob_dirs := λ _, [["home"; "gis1"]];
     read_file := λ _, Some sample_gdf;
     write_fails := λ _, false |}.

(** Two inputs whose names differ in case only. *)
Definition clash_world : world :=
  {| gtx_exists := true;
     listdir := λ _, ["a.shp"; "A.shp"];
     glob_dirs := λ _, [];
     read_file := λ _, Some sample_gdf;
     write_fails := λ _, false |}.

(** The second of three inputs cannot be read. *)
Definition failing_world : world :=
  {| gtx_exists := true;
     listdir := λ _, ["roads.shp"; "bad.shp"; "later.shp"];
     glob_dirs := λ _, [];
     read_file := λ p, if String.eqb (path_name p) "bad.shp" then None
                       else Some sample_gdf;
     write_fails := λ _, false |}.

Definition sample_mixed : geometry :=
  MultiPoint [Some (XYZ 260096 4980736 3); Some (XY 1 2)].

Definition sample_ring : geometry :=
  LinearRing [XYZ 0 0 1; XYZ 16384 0 1; XYZ 0 0 1].

(** ** The script *)

Section Script.

(** [to_wgs84.transform] and [vshift.transform] of pyproj. *)
Variable to_wgs84 : float → float → float * float.
Variable vshift : float → float → float → float * float * float.
(** [==] on pyproj CRS objects. *)
Variable crs_eq : CRS → CRS → bool.
(** The reprojection of one geometry that [GeoDataFrame.to_crs] applies. *)
Variable transform_geom : CRS → CRS → geometry → geometry.
(** [str.upper] *)
Variable upper : string → string.
(** [Path(__file__).resolve().parent] *)
Variable SCRIPT_DIR : path.

Definition SRC_DIR : path := joinpath SCRIPT_DIR "shp_input".
Definition OUT_DIR : path := joinpath SCRIPT_DIR "shp_output".
Definition GTX_PATH : path := joinpath SCRIPT_DIR "egm96_15.gtx".

Definition to_wgs84_transform (x y : float) : M (float * float) :=
  ([ToWgs84 x y], Done (to_wgs84 x y)).

Definition vshift_transform (lon lat z : float) : M (float * float * float) :=
  ([VShift lon lat z], Done (vshift lon lat z)).

(** [_ellip] of [z_fix]: unpacking a pair or a tuple of four into
    [x, y, z] raises. *)
Definition _ellip (c : coord) : M coord :=
  match c with
  | XYZ x y z =>
      '(lon, lat) ← to_wgs84_transform x y;
      '(_, _, N) ← vshift_transform lon lat 0;
      mret (XYZ x y (z + N))
  | XY _ _ | XYZM _ _ _ _ => raise ValueError
  end.

(** What [_ellip] computes, as functions: the undulation the grid gives
    at a geographic position, the undulation at the position a projected
    [(x, y)] reprojects to, the corrected triple, and the two calls made
    for a coordinate. *)
Definition undulation (lon lat : float) : float := (vshift lon lat 0).2.

Definition undulation_at (x y : float) : float :=
  undulation (to_wgs84 x y).1 (to_wgs84 x y).2.

Definition corrected (c : coord) : coord :=
  match c with
  | XYZ x y z => XYZ x y (z + undulation_at x y)
  | XY _ _ | XYZM _ _ _ _ => c
  end.

Definition correct_part (cs : list coord) : list coord := corrected <$> cs.

Definition lookups (c : coord) : list event :=
  match c with
  | XYZ x y z => [ToWgs84 x y; VShift (to_wgs84 x y).1 (to_wgs84 x y).2 0]
  | XY _ _ | XYZM _ _ _ _ => []
  end.

(** The computation [m] makes the calls for the coordinates [its], in
    their order and from the first on: for all of them when it ends
    normally, and otherwise as far as it gets; the coordinates it makes
    calls for are triples. *)
Definition runs_over {A} (m : M A) (its : list coord) : Prop :=
  ∃ cs : list coord,
    trace m = cs ≫= lookups ∧
    cs `prefix_of` its ∧
    forallb is_xyz cs = true ∧
    ∀ a, result m = Done a → cs = its.

(** The geometry [z_fix] builds from a geometry it corrects: the
    constructor it calls, on the corrected coordinates. *)
Definition correct_geometry (g : geometry) : geometry :=
  match strip g with
  | Point c => Point (corrected <$> c)
  | LineString cs | LinearRing cs => LineString (correct_part cs)
  | MultiPoint pts =>
      MultiPoint ((λ pt : option coord, corrected <$> pt) <$> pts)
  | MultiLineString segs => MultiLineString (correct_part <$> segs)
  | _ => g
  end.

(** [pt.coords[0]] of a point. *)
Definition first_coord (c : option coord) : M coord :=
  match c with
  | Some c => mret c
  | None => raise IndexError
  end.

(** The constructor [MultiLineString] on a list of lines: it refuses an
    empty line among them. *)
Definition new_MultiLineString (lines : list (list coord)) : M geometry :=
  if existsb no_coords lines then raise EmptyPartError
  else mret (MultiLineString lines).

(** [z_fix]; the flag is [APPLY_Z_FIX].  The branches are the
    [isinstance] tests in the order of the source; a [LinearRing] is an
    instance of [LineString].  The points a comprehension builds are not
    empty, so the constructor [MultiPoint] takes them; the constructors
    [Point] and [LineString] take what they are given here. *)
Definition z_fix (apply_z_fix : bool) (geom : geometry) : M geometry :=
  if negb (apply_z_fix && has_z geom) then mret geom else
  match strip geom with
  | Point c =>
      c' ← first_coord c ≫= _ellip; mret (Point (Some c'))
  | LineString cs | LinearRing cs =>
      cs' ← mapM _ellip cs; mret (LineString cs')
  | MultiPoint pts =>
      pts' ← mapM (λ pt, c' ← first_coord pt ≫= _ellip; mret (Some c')) pts;
      mret (MultiPoint pts')
  | MultiLineString segs =>
      segs' ← mapM (mapM _ellip) segs; new_MultiLineString segs'
  | _ => mret geom
  end.

(** [z_fix] on a cell of the geometry column: on a missing geometry the
    attribute [has_z] does not exist. *)
Definition z_fix_cell (apply_z_fix : bool) (cell : option geometry)
  : M (option geometry) :=
  match cell with
  | Some geom => geom' ← z_fix apply_z_fix geom; mret (Some geom')
  | None => if apply_z_fix then raise AttributeError else mret None
  end.

(** [gdf.to_crs(dst, inplace=True)] *)
Definition to_crs (gdf : GeoDataFrame) (dst : CRS) : M GeoDataFrame :=
  match crs gdf with
  | Some src =>
      mret {| crs := Some dst;
              geometry_col :=
                (λ cell : option geometry, transform_geom src dst <$> cell)
                  <$> geometry_col gdf;
              columns := columns gdf |}
  | None => raise ValueError
  end.

(** Task 1 of the loop body. *)
Definition normalize_crs (gdf : GeoDataFrame) : M GeoDataFrame :=
  match crs gdf with
  | None => mret (set_crs gdf CRS_TARGET)
  | Some c =>
      if negb (crs_eq c CRS_TARGET) then to_crs gdf CRS_TARGET else mret gdf
  end.

Variable w : world.

Definition gpd_read_file (p : path) : M GeoDataFrame :=
  emit (ReadFile p);;
  match read_file w p with
  | Some gdf => mret gdf
  | None => raise IOError
  end.

Definition to_file (gdf : GeoDataFrame) (p : path) : M unit :=
  emit (ToFile p gdf);;
  if write_fails w p then raise IOError else mret ().

(** [glob.glob(str(SRC_DIR / "*.shp"))] on a POSIX system.  The whole
    path is the pattern: when the script directory has a wildcard
    character, the directories listed are the directories [shp_input] of
    those the script directory matches as a pattern, which the file
    system gives; otherwise [SRC_DIR] alone is listed. *)
Definition glob_parents : list path :=
  if existsb has_magic SCRIPT_DIR then glob_dirs w SCRIPT_DIR else [SCRIPT_DIR].

Definition glob_shp : list path :=
  parent ← glob_parents;
  joinpath (joinpath parent "shp_input")
    <$> List.filter matches_shp (listdir w (joinpath parent "shp_input")).

Definition out_path_of (src_path : path) : path :=
  joinpath OUT_DIR (upper (path_stem src_path) +:+ path_suffix src_path).

(** The body of the loop of [main]. *)
Definition convert (apply_z_fix : bool) (src_path : path) : M unit :=
  emit (Stdout (MsgFile (path_name src_path)));;
  gdf ← gpd_read_file src_path;
  gdf ← normalize_crs gdf;
  col ← mapM (z_fix_cell apply_z_fix) (geometry_col gdf);
  let gdf := set_geometry gdf col in
  let gdf := rename_columns gdf in
  let out_path := out_path_of src_path in
  to_file gdf out_path;;
  emit (Stdout (MsgSaved out_path)).

Definition main (apply_z_fix : bool) : M unit :=
  let shp_files := glob_shp in
  match shp_files with
  | [] => sys_exit (NoShp SRC_DIR)
  | _ =>
      for_each (convert apply_z_fix) shp_files;;
      emit (Stdout (MsgAllDone OUT_DIR))
  end.

(** The module, run as a script: the check of the grid, the creation of
    the output directory, then [main]. *)
Definition script (apply_z_fix : bool) : M unit :=
  if negb (gtx_exists w) then sys_exit (NoGeoid GTX_PATH) else
  emit (Mkdir OUT_DIR);;
  main apply_z_fix.

(** ** The monad *)

Lemma bind_Done {A B} (tr : list event) (a : A) (f : A → M B) :
  (tr, Done a) ≫= f = (tr ++ (f a).1, (f a).2).
Proof. reflexivity. Qed.

Lemma bind_ret_l {A B} (a : A) (f : A → M B) : mret a ≫= f = f a.
Proof. unfold mret, M_ret. rewrite bind_Done. simpl. by destruct (f a). Qed.

Lemma bind_ret_r {A} (m : M A) : m ≫= mret = m.
Proof.
  destruct m as [tr [a | r | e]]; try reflexivity.
  rewrite bind_Done. simpl. by rewrite app_nil_r.
Qed.

Lemma mapM_ret {A} (l : list A) : mapM (M := M) mret l = mret l.
Proof.
  induction l as [| a l IH]; [reflexivity |].
  cbn [mapM]. rewrite bind_ret_l, IH. by rewrite bind_ret_l.
Qed.

(** A loop whose body, at every element, performs the calls [t a] and
    yields [h a], performs them all in order and yields the mapped list. *)
Lemma mapM_Done {A B} (f : A → M B) (t : A → list event) (h : A → B) (l : list A) :
  Forall (λ a, f a = (t a, Done (h a))) l →
  mapM f l = (l ≫= t, Done (h <$> l)).
Proof.
  induction 1 as [| a l Ha _ IH]; [reflexivity |].
  cbn [mapM]. rewrite Ha, bind_Done, IH, bind_Done. simpl. by rewrite app_nil_r.
Qed.

(** ** [z_fix] *)

Lemma _ellip_xyz (x y z : float) :
  _ellip (XYZ x y z) = (lookups (XYZ x y z), Done (corrected (XYZ x y z))).
Proof.
  unfold _ellip, to_wgs84_transform, vshift_transform, corrected, lookups,
    undulation_at, undulation.
  rewrite bind_Done. simpl.
  destruct (to_wgs84 x y) as [lon lat]. simpl.
  destruct (vshift lon lat 0) as [[a b] N]. reflexivity.
Qed.

Lemma _ellip_triple (c : coord) :
  is_xyz c = true → _ellip c = (lookups c, Done (corrected c)).
Proof.
  destruct c as [x y | x y z | x y z m]; intros H; try discriminate H;
    unfold _ellip, to_wgs84_transform, vshift_transform, corrected, lookups,
      undulation_at, undulation;
    rewrite bind_Done; simpl;
    destruct (to_wgs84 x y) as [lon lat]; simpl;
    destruct (vshift lon lat 0) as [[a b] N]; reflexivity.
Qed.

Lemma _ellip_not_triple (c : coord) :
  is_xyz c = false → _ellip c = ([], Raised ValueError).
Proof. destruct c; intros H; try discriminate H; reflexivity. Qed.

Lemma type_of_strip (g : geometry) : type_of (strip g) = type_of g.
Proof. induction g; simpl; auto. Qed.

Lemma parts_strip (g : geometry) : parts (strip g) = parts g.
Proof. induction g; simpl; auto. Qed.

Lemma all_xyz_strip (g : geometry) : all_xyz (strip g) = all_xyz g.
Proof. induction g; simpl; auto. Qed.

Lemma handled_strip (g : geometry) : handled (strip g) = handled g.
Proof. unfold handled, isinstance. by rewrite type_of_strip. Qed.

Lemma strip_not_WithZ (g g' : geometry) : strip g ≠ WithZ g'.
Proof. induction g; simpl; auto; discriminate. Qed.

Lemma _ellip_all_xyz (cs : list coord) :
  forallb is_xyz cs = true →
  Forall (λ c, _ellip c = (lookups c, Done (corrected c))) cs.
Proof.
  induction cs as [| c cs IH]; simpl; intros H; [constructor |].
  apply andb_prop in H as [Hc Hcs].
  constructor; [by apply _ellip_triple | by apply IH].
Qed.

Lemma mapM_ellip (cs : list coord) :
  forallb is_xyz cs = true →
  mapM _ellip cs = (cs ≫= lookups, Done (corrected <$> cs)).
Proof. intros H. by apply mapM_Done, _ellip_all_xyz. Qed.

Lemma z_fix_identity_cases (flag : bool) (g : geometry) :
  flag && has_z g = false → z_fix flag g = mret g.
Proof. intros H. unfold z_fix. by rewrite H. Qed.

Lemma bind_concat {A B} (f : A → list B) (l : list (list A)) :
  concat l ≫= f = l ≫= (λ s, s ≫= f).
Proof.
  induction l as [| s l IH]; [reflexivity |].
  cbn [concat]. rewrite bind_app, IH. reflexivity.
Qed.

Lemma bind_fmap_list {A B C} (f : A → B) (g : B → list C) (l : list A) :
  (f <$> l) ≫= g = l ≫= (λ a, g (f a)).
Proof.
  induction l as [| a l IH]; [reflexivity |].
  cbn [fmap list_fmap mbind list_bind] in *. by rewrite IH.
Qed.

(** The body of the comprehension over the members of a [MultiPoint]. *)
Lemma multipoint_member (pts : list (option coord)) :
  forallb point_is_xyz pts = true →
  Forall (λ pt, (c' ← first_coord pt ≫= _ellip; mret (Some c'))
                = (option_list pt ≫= lookups, Done (corrected <$> pt))) pts.
Proof.
  induction pts as [| [c |] pts IH]; simpl; intros H;
    try discriminate; [constructor |].
  apply andb_prop in H as [Hc Hpts]. constructor; [| by apply IH].
  unfold first_coord. rewrite bind_ret_l, (_ellip_triple c Hc), bind_Done.
  simpl. by rewrite !app_nil_r.
Qed.

Lemma multiline_member (segs : list (list coord)) :
  forallb (forallb is_xyz) segs = true →
  Forall (λ seg, mapM _ellip seg = (seg ≫= lookups, Done (corrected <$> seg))) segs.
Proof.
  induction segs as [| seg segs IH]; simpl; intros H; constructor.
  - apply mapM_ellip. by destruct (forallb is_xyz seg).
  - apply IH. by destruct (forallb is_xyz seg).
Qed.

Lemma option_list_fmap {A B} (f : A → B) (o : option A) :
  option_list (f <$> o) = f <$> option_list o.
Proof. by destruct o. Qed.

(** What a geometry whose parts are the corrected parts of another looks
    like, position by position. *)
Lemma correct_part_positions (g g' : geometry) :
  parts g' = correct_part <$> parts g →
  part_lengths g' = part_lengths g ∧
  ∀ i j x y z, coord_at g i j = Some (XYZ x y z) →
    coord_at g' i j = Some (XYZ x y (z + undulation_at x y)).
Proof.
  intros Hp. split.
  - unfold part_lengths. rewrite Hp, <- list_fmap_compose. apply list_fmap_ext.
    intros _ cs _. simpl. apply length_fmap.
  - intros i j x y z. unfold coord_at. rewrite Hp, list_lookup_fmap.
    destruct (parts g !! i) as [cs |]; simpl; [| discriminate].
    unfold correct_part. rewrite list_lookup_fmap. intros ->. reflexivity.
Qed.

Lemma no_coords_correct_part (cs : list coord) :
  no_coords (correct_part cs) = no_coords cs.
Proof. by destruct cs. Qed.

Lemma existsb_no_coords_correct_part (segs : list (list coord)) :
  existsb no_coords (correct_part <$> segs) = existsb no_coords segs.
Proof.
  induction segs as [| seg segs IH]; [done |]. csimpl.
  by rewrite no_coords_correct_part, IH.
Qed.

(** The run of [z_fix] on a geometry with Z that passes one of its tests,
    has triples only and no empty line among its parts. *)
Lemma z_fix_corrects (g : geometry) :
  handled g = true → has_z g = true → all_xyz g = true →
  no_empty_line g = true →
  z_fix APPLY_Z_FIX g = (concat (parts g) ≫= lookups, Done (correct_geometry g)).
Proof.
  intros Hc Hz Hxyz Hne. unfold z_fix, APPLY_Z_FIX. rewrite Hz. cbn [andb negb].
  rewrite <- handled_strip in Hc. rewrite <- all_xyz_strip in Hxyz.
  rewrite <- (parts_strip g). unfold no_empty_line in Hne. unfold correct_geometry.
  destruct (strip g) as [c | cs | cs | sh hs | pts | segs | polys | gs | g0] eqn:Hs;
    try discriminate Hc; cbn [parts all_xyz] in *.
  - destruct c as [c |]; [| discriminate Hxyz].
    unfold first_coord. rewrite bind_ret_l, (_ellip_triple c Hxyz), bind_Done.
    simpl. by rewrite !app_nil_r.
  - rewrite (mapM_ellip cs Hxyz), bind_Done. cbn [concat].
    by rewrite !app_nil_r.
  - rewrite (mapM_ellip cs Hxyz), bind_Done. cbn [concat].
    by rewrite !app_nil_r.
  - rewrite (mapM_Done _ _ _ pts (multipoint_member pts Hxyz)), bind_Done.
    rewrite bind_concat, bind_fmap_list. cbn [fst snd mret M_ret].
    by rewrite app_nil_r.
  - rewrite (mapM_Done _ _ _ segs (multiline_member segs Hxyz)), bind_Done.
    unfold new_MultiLineString. cbn [snd].
    change ((λ seg : list coord, corrected <$> seg) <$> segs)
      with (correct_part <$> segs).
    rewrite existsb_no_coords_correct_part.
    apply negb_true_iff in Hne. rewrite Hne.
    rewrite bind_concat. cbn [fst snd mret M_ret]. by rewrite app_nil_r.
  - by apply strip_not_WithZ in Hs.
Qed.

Lemma type_of_correct_geometry (g : geometry) :
  supported_class (type_of g) = true →
  type_of (correct_geometry g) = type_of g.
Proof.
  rewrite <- (type_of_strip g). unfold correct_geometry.
  destruct (strip g) eqn:Hs; try done.
  by apply strip_not_WithZ in Hs.
Qed.

Lemma supported_handled (g : geometry) :
  supported_class (type_of g) = true → handled g = true.
Proof. unfold handled, isinstance. by destruct (type_of g). Qed.

Lemma parts_correct_geometry (g : geometry) :
  handled g = true → parts (correct_geometry g) = correct_part <$> parts g.
Proof.
  rewrite <- (handled_strip g), <- (parts_strip g). unfold correct_geometry.
  destruct (strip g) as [c | cs | cs | sh hs | pts | segs | polys | gs | g0] eqn:Hs;
    try discriminate; intros Hh; cbn [parts]; try done.
  - by destruct c.
  - rewrite <- !list_fmap_compose. apply list_fmap_ext.
    intros _ pt _. apply option_list_fmap.
  - by apply strip_not_WithZ in Hs.
Qed.

(** C1.  On a geometry of one of the four supported classes that has a Z
    ordinate, whose points are all triples and none of whose parts is an
    empty line, [z_fix] ends normally with a geometry of the same class
    whose parts are those of the input with every triple [(x, y, z)]
    replaced by [(x, y, z + N)], where [N] is the undulation that [vshift]
    gives at the longitude and latitude that [to_wgs84] gives for
    [(x, y)]: [x] and [y] are kept, and each part has its coordinates in
    the same number and order.  The calls made are one reprojection and
    one grid lookup per coordinate, in order. *)
Theorem z_fix_adds_undulation (g : geometry) :
  supported_class (type_of g) = true →
  has_z g = true →
  all_xyz g = true →
  no_empty_line g = true →
  ∃ g' : geometry,
    z_fix APPLY_Z_FIX g = (concat (parts g) ≫= lookups, Done g') ∧
    type_of g' = type_of g ∧
    parts g' = correct_part <$> parts g ∧
    part_lengths g' = part_lengths g ∧
    ∀ i j x y z, coord_at g i j = Some (XYZ x y z) →
      coord_at g' i j = Some (XYZ x y (z + undulation_at x y)).
Proof.
  intros Hc Hz Hxyz Hne. exists (correct_geometry g).
  pose proof (supported_handled g Hc) as Hh.
  pose proof (parts_correct_geometry g Hh) as Hp.
  destruct (correct_part_positions g _ Hp) as [Hlen Hpos].
  split; [by apply z_fix_corrects |].
  split; [by apply type_of_correct_geometry |]. done.
Qed.

(** C2.  A geometry that passes none of the four [isinstance] tests of
    [z_fix], a [Polygon] with Z ordinates for one, is returned as it
    is: the call ends normally, and no reprojection or lookup is made. *)
Theorem z_fix_unsupported_unchanged (flag : bool) (g : geometry) :
  handled g = false →
  z_fix flag g = ([], Done g).
Proof.
  intros H. unfold z_fix. destruct (negb _); [done |].
  rewrite <- handled_strip in H.
  destruct (strip g) eqn:Hs; try discriminate H; done.
Qed.

(** C3.  A geometry without a Z ordinate is returned as it is, and
    neither [to_wgs84] nor [vshift] is called: the trace is empty. *)
Theorem z_fix_without_z_identity (flag : bool) (g : geometry) :
  has_z g = false →
  z_fix flag g = ([], Done g).
Proof.
  intros H. apply z_fix_identity_cases. rewrite H. apply andb_false_r.
Qed.

Lemma bind_ext {A B} (m : M A) (f g : A → M B) :
  (∀ a, f a = g a) → m ≫= f = m ≫= g.
Proof.
  intros H. destruct m as [tr [a | r | e]]; try reflexivity.
  by rewrite !bind_Done, H.
Qed.

Lemma z_fix_cell_disabled (cell : option geometry) :
  z_fix_cell false cell = mret cell.
Proof. destruct cell as [g |]; reflexivity. Qed.

Lemma mapM_z_fix_cell_disabled (col : list (option geometry)) :
  mapM (z_fix_cell false) col = mret col.
Proof.
  induction col as [| cell col IH]; [reflexivity |].
  cbn [mapM]. rewrite z_fix_cell_disabled, bind_ret_l, IH.
  by rewrite bind_ret_l.
Qed.

Lemma set_geometry_same (gdf : GeoDataFrame) :
  set_geometry gdf (geometry_col gdf) = gdf.
Proof. by destruct gdf. Qed.

(** C10.  With the flag off, [z_fix] returns every geometry as it is and
    calls neither transformer, also on a supported geometry with Z
    ordinates; the loop body is then the reading, the normalisation of
    the CRS, the renaming of the columns and the writing. *)
Theorem z_fix_disabled_identity :
  (∀ g : geometry, z_fix false g = ([], Done g)) ∧
  (∀ col : list (option geometry),
      mapM (z_fix_cell false) col = ([], Done col)) ∧
  (∀ src_path : path,
      convert false src_path =
        (emit (Stdout (MsgFile (path_name src_path)));;
         gdf ← gpd_read_file src_path;
         gdf ← normalize_crs gdf;
         to_file (rename_columns gdf) (out_path_of src_path);;
         emit (Stdout (MsgSaved (out_path_of src_path))))).
Proof.
  split; [| split].
  - intros g. by apply z_fix_identity_cases.
  - apply mapM_z_fix_cell_disabled.
  - intros src_path. unfold convert.
    apply bind_ext; intros _. apply bind_ext; intros gdf0.
    apply bind_ext; intros gdf.
    rewrite mapM_z_fix_cell_disabled, bind_ret_l.
    by rewrite set_geometry_same.
Qed.

(** ** Renaming *)

Lemma RENAME_FIELDS_lookup (name new : string) :
  RENAME_FIELDS !! name = Some new ↔
  (name, new) ∈ [("id", "ID"); ("linkid", "LinkID"); ("l_linkid", "L_LinkID");
                 ("r_linkid", "R_LinkID"); ("tonodeid", "ToNodeID");
                 ("fromnodeid", "FromNodeID"); ("roadrank", "RoadRank");
                 ("roadno", "RoadNo"); ("laneno", "LaneNo");
                 ("distance", "Distance"); ("maxspeed", "MaxSpeed")].
Proof.
  unfold RENAME_FIELDS. symmetry. apply elem_of_list_to_map.
  refine (bool_decide_unpack _ _). by vm_compute.
Qed.

(** No target name of the table is a key of the table. *)
Lemma RENAME_FIELDS_targets (name new : string) :
  RENAME_FIELDS !! name = Some new → RENAME_FIELDS !! new = None.
Proof.
  rewrite RENAME_FIELDS_lookup, !elem_of_cons, elem_of_nil.
  intros H. repeat destruct H as [H | H]; try done;
    injection H as _ ->; by vm_compute.
Qed.

Lemma rename_label_idempotent (name : string) :
  rename_label RENAME_FIELDS (rename_label RENAME_FIELDS name)
  = rename_label RENAME_FIELDS name.
Proof.
  unfold rename_label at 2 3.
  destruct (RENAME_FIELDS !! name) as [new |] eqn:E; simpl.
  - unfold rename_label. by rewrite (RENAME_FIELDS_targets _ _ E).
  - unfold rename_label. by rewrite E.
Qed.

(** The geometry column of a frame read from a file is named
    [geometry], which the table does not rename. *)
Lemma geometry_not_renamed : RENAME_FIELDS !! "geometry" = None.
Proof. by vm_compute. Qed.

(** Renaming the columns of a frame renames the fields of each of its
    records. *)
Lemma record_at_rename_columns (gdf : GeoDataFrame) (i : nat) :
  record_at (rename_columns gdf) i = rename (record_at gdf i) RENAME_FIELDS.
Proof.
  unfold record_at, rename_columns, rename. simpl.
  rewrite <- !list_fmap_compose. apply list_fmap_ext.
  by intros _ [name cells] _.
Qed.

(** [rename] keeps every field at its position with its value, under the
    label that the table gives its name. *)
Lemma rename_lookup {V} (R : list (string * V)) (mapping : gmap string string)
    (i : nat) (name : string) (v : V) :
  R !! i = Some (name, v) →
  rename R mapping !! i = Some (rename_label mapping name, v).
Proof. intros HR. unfold rename. by rewrite list_lookup_fmap, HR. Qed.

(** C4.  The renaming of the columns of a layer ([gdf.rename] of the loop
    body), seen at the record of any row: a field at a position of the
    record, with name [name] and value [v], is afterwards at the same
    position with the same value, under the mapped name when [name] is a
    key of the table, under [name] itself when it is not.  The keys are
    the eleven lower-case names, compared as they are written. *)
Theorem rename_carries_fields (gdf : GeoDataFrame) (i j : nat)
    (name : string) (v : option value) :
  record_at gdf i !! j = Some (name, v) →
  (∀ new, RENAME_FIELDS !! name = Some new →
          record_at (rename_columns gdf) i !! j = Some (new, v)) ∧
  (RENAME_FIELDS !! name = None →
          record_at (rename_columns gdf) i !! j = Some (name, v)) ∧
  (is_Some (RENAME_FIELDS !! name) ↔
     name ∈ ["id"; "linkid"; "l_linkid"; "r_linkid"; "tonodeid"; "fromnodeid";
             "roadrank"; "roadno"; "laneno"; "distance"; "maxspeed"]) ∧
  length (record_at (rename_columns gdf) i) = length (record_at gdf i).
Proof.
  intros HR. rewrite record_at_rename_columns.
  pose proof (rename_lookup _ RENAME_FIELDS _ _ _ HR) as Hi.
  split; [| split; [| split]].
  - intros new E. rewrite Hi. unfold rename_label. by rewrite E.
  - intros E. rewrite Hi. unfold rename_label. by rewrite E.
  - split.
    + intros [new E]. apply RENAME_FIELDS_lookup in E.
      apply (list_elem_of_fmap_2 fst) in E. exact E.
    + intros E. rewrite !elem_of_cons, elem_of_nil in E.
      repeat destruct E as [-> | E]; try done; by vm_compute.
  - unfold rename. apply length_fmap.
Qed.

(** C5.  Renaming twice is renaming once, since no target name of the
    table is one of its keys. *)
Theorem rename_idempotent {V} (R : list (string * V)) :
  rename (rename R RENAME_FIELDS) RENAME_FIELDS = rename R RENAME_FIELDS ∧
  (∀ name new, RENAME_FIELDS !! name = Some new → RENAME_FIELDS !! new = None).
Proof.
  split; [| apply RENAME_FIELDS_targets].
  unfold rename. rewrite <- list_fmap_compose. apply list_fmap_ext.
  intros _ [name v] _. simpl. unfold prod_map. simpl.
  by rewrite rename_label_idempotent.
Qed.

(** ** The CRS of a layer *)

(** C6.  The first task of the loop body: a layer without a CRS gets the
    target CRS and keeps its coordinates; a layer whose CRS differs from
    the target has every geometry reprojected from its CRS into the
    target; a layer whose CRS equals the target is left as it is. *)
Theorem normalize_crs_cases (gdf : GeoDataFrame) :
  (crs gdf = None →
     ∃ gdf', normalize_crs gdf = ([], Done gdf') ∧
             crs gdf' = Some CRS_TARGET ∧
             geometry_col gdf' = geometry_col gdf ∧
             columns gdf' = columns gdf) ∧
  (∀ c, crs gdf = Some c → crs_eq c CRS_TARGET = false →
     ∃ gdf', normalize_crs gdf = ([], Done gdf') ∧
             crs gdf' = Some CRS_TARGET ∧
             geometry_col gdf'
             = (λ cell : option geometry, transform_geom c CRS_TARGET <$> cell)
                 <$> geometry_col gdf ∧
             columns gdf' = columns gdf) ∧
  (∀ c, crs gdf = Some c → crs_eq c CRS_TARGET = true →
     normalize_crs gdf = ([], Done gdf)).
Proof.
  unfold normalize_crs, to_crs. split; [| split].
  - intros ->. by eexists.
  - intros c -> ->. by eexists.
  - by intros c -> ->.
Qed.

(** ** Traces *)

Lemma trace_bind {A B} (m : M A) (f : A → M B) :
  trace (m ≫= f)
  = trace m ++ match result m with Done a => trace (f a) | _ => [] end.
Proof.
  destruct m as [tr [a | r | e]]; [by rewrite bind_Done | |];
    unfold trace; simpl; by rewrite app_nil_r.
Qed.

Lemma result_bind {A B} (m : M A) (f : A → M B) :
  result (m ≫= f)
  = match result m with
    | Done a => result (f a)
    | SysExit r => SysExit r
    | Raised e => Raised e
    end.
Proof. by destruct m as [tr [a | r | e]]. Qed.

Lemma Forall_trace_bind {A B} (P : event → Prop) (m : M A) (f : A → M B) :
  Forall P (trace m) →
  (∀ a, result m = Done a → Forall P (trace (f a))) →
  Forall P (trace (m ≫= f)).
Proof.
  intros Hm Hf. rewrite trace_bind. apply Forall_app. split; [done |].
  destruct (result m); auto.
Qed.

Lemma Forall_trace_mapM {A B} (P : event → Prop) (f : A → M B) (l : list A) :
  (∀ a, Forall P (trace (f a))) → Forall P (trace (mapM f l)).
Proof.
  intros Hf. induction l as [| a l IH]; [constructor |].
  cbn [mapM]. apply Forall_trace_bind; [done |]. intros b _.
  apply Forall_trace_bind; [done |]. intros k _. constructor.
Qed.

Lemma Forall_trace_for_each {A} (P : event → Prop) (f : A → M unit) (l : list A) :
  (∀ a, a ∈ l → Forall P (trace (f a))) → Forall P (trace (for_each f l)).
Proof.
  induction l as [| a l IH]; intros Hf; [constructor |].
  cbn [for_each]. apply Forall_trace_bind.
  - apply Hf. left.
  - intros _ _. apply IH. intros b Hb. apply Hf. by right.
Qed.

(** The only events of [z_fix] are calls of the two transformers. *)
Lemma _ellip_trace (c : coord) :
  Forall (λ e, is_transform e = true) (trace (_ellip c)).
Proof.
  destruct (is_xyz c) eqn:Hc.
  - rewrite (_ellip_triple c Hc). destruct c; try discriminate Hc;
      repeat constructor.
  - rewrite (_ellip_not_triple c Hc). constructor.
Qed.

Lemma first_ellip_trace (pt : option coord) :
  Forall (λ e, is_transform e = true) (trace (first_coord pt ≫= _ellip)).
Proof.
  apply Forall_trace_bind.
  - destruct pt; constructor.
  - intros c _. apply _ellip_trace.
Qed.

Lemma new_MultiLineString_trace (lines : list (list coord)) :
  trace (new_MultiLineString lines) = [].
Proof. unfold new_MultiLineString. by destruct (existsb _ _). Qed.

Lemma z_fix_trace (flag : bool) (g : geometry) :
  Forall (λ e, is_transform e = true) (trace (z_fix flag g)).
Proof.
  unfold z_fix. destruct (negb _); [constructor |].
  destruct (strip g); try constructor;
    (apply Forall_trace_bind;
     [| intros; rewrite ?new_MultiLineString_trace; constructor]).
  - apply first_ellip_trace.
  - apply Forall_trace_mapM, _ellip_trace.
  - apply Forall_trace_mapM, _ellip_trace.
  - apply Forall_trace_mapM. intros pt.
    apply Forall_trace_bind; [apply first_ellip_trace | intros; constructor].
  - apply Forall_trace_mapM. intros seg.
    apply Forall_trace_mapM, _ellip_trace.
Qed.

Lemma z_fix_cell_trace (flag : bool) (cell : option geometry) :
  Forall (λ e, is_transform e = true) (trace (z_fix_cell flag cell)).
Proof.
  destruct cell as [g |]; simpl.
  - apply Forall_trace_bind; [apply z_fix_trace | intros; constructor].
  - destruct flag; constructor.
Qed.

Lemma bind_Done_inv {A B} (m : M A) (f : A → M B) (b : B) :
  result (m ≫= f) = Done b →
  ∃ a, result m = Done a ∧ result (f a) = Done b ∧
       trace (m ≫= f) = trace m ++ trace (f a).
Proof.
  rewrite trace_bind, result_bind.
  destruct (result m) as [a | r | e]; try discriminate. eauto.
Qed.

Lemma for_each_Done {A} (f : A → M unit) (l : list A) :
  result (for_each f l) = Done () →
  ∀ a, a ∈ l →
    result (f a) = Done () ∧ ∀ e, e ∈ trace (f a) → e ∈ trace (for_each f l).
Proof.
  induction l as [| x l IH]; intros Hl a Ha; [by apply elem_of_nil in Ha |].
  cbn [for_each] in *. apply bind_Done_inv in Hl as ([] & Hx & Hrest & ->).
  apply elem_of_cons in Ha as [-> | Ha].
  - split; [done |]. intros e He. apply elem_of_app. by left.
  - destruct (IH Hrest a Ha) as [Hr Ht]. split; [done |].
    intros e He. apply elem_of_app. right. by apply Ht.
Qed.

(** ** Names of shapefiles *)

Lemma append_cons (c : ascii) (s t : string) :
  String c s +:+ t = String c (s +:+ t).
Proof. reflexivity. Qed.

Lemma substring_all (s : string) : substring 0 (String.length s) s = s.
Proof. induction s as [| c s IH]; simpl; by rewrite ?IH. Qed.

Lemma substring_split (s : string) (n : nat) :
  n ≤ String.length s →
  s = (substring 0 n s +:+ substring n (String.length s - n) s).
Proof.
  revert n. induction s as [| c s IH]; intros [| n] Hn; simpl in *; try lia.
  - reflexivity.
  - by rewrite substring_all.
  - rewrite append_cons. f_equal. apply IH. lia.
Qed.

Lemma ends_with_split (suf s : string) :
  ends_with suf s = true →
  s = substring 0 (String.length s - String.length suf) s +:+ suf.
Proof.
  unfold ends_with. intros [Hlen Heq]%andb_prop.
  apply bool_decide_eq_true in Hlen. apply String.eqb_eq in Heq.
  pose proof (substring_split s (String.length s - String.length suf)) as Hs.
  replace (String.length s - (String.length s - String.length suf))
    with (String.length suf) in Hs by lia.
  rewrite Heq in Hs. apply Hs. lia.
Qed.

Lemma rfind_dot_shp (stem : string) :
  rfind "."%char (stem +:+ ".shp") = Some (String.length stem).
Proof.
  induction stem as [| c stem IH]; [reflexivity |].
  rewrite append_cons. simpl. by rewrite IH.
Qed.

Lemma length_append_shp (stem : string) :
  String.length (stem +:+ ".shp") = String.length stem + 4.
Proof.
  induction stem as [| c stem IH]; [reflexivity |].
  rewrite append_cons. simpl. by rewrite IH.
Qed.

Lemma substring_append_l (stem s : string) :
  substring 0 (String.length stem) (stem +:+ s) = stem.
Proof.
  induction stem as [| c stem IH]; [by destruct s |].
  rewrite append_cons. simpl. by rewrite IH.
Qed.

Lemma substring_append_r (stem s : string) (n : nat) :
  substring (String.length stem) n (stem +:+ s) = substring 0 n s.
Proof.
  induction stem as [| c stem IH]; [reflexivity |].
  rewrite append_cons. simpl. by rewrite IH.
Qed.

(** A name that [glob] selects is a non-empty stem followed by [.shp],
    and pathlib splits it there. *)
Lemma shp_name_split (name : string) :
  matches_shp name = true →
  ∃ stem, name = (stem +:+ ".shp") ∧
          split_at_dot name = Some (String.length stem).
Proof.
  unfold matches_shp. intros [Hend Hdot]%andb_prop.
  apply ends_with_split in Hend.
  set (stem := substring 0 (String.length name - String.length ".shp") name) in *.
  exists stem. split; [done |].
  unfold split_at_dot. rewrite Hend, rfind_dot_shp, length_append_shp.
  rewrite bool_decide_eq_true_2; [done |].
  destruct stem as [| c stem]; [| simpl; lia].
  rewrite Hend in Hdot. discriminate Hdot.
Qed.

Lemma path_name_joinpath (dir : path) (name : string) :
  path_name (joinpath dir name) = name.
Proof. unfold path_name, joinpath. apply last_last. Qed.

Lemma shp_path_split (dir : path) (name : string) :
  matches_shp name = true →
  path_suffix (joinpath dir name) = ".shp" ∧
  path_name (joinpath dir name)
  = path_stem (joinpath dir name) +:+ ".shp".
Proof.
  intros (stem & Hname & Hsplit)%shp_name_split.
  unfold path_suffix, path_stem. rewrite path_name_joinpath, Hsplit.
  rewrite Hname, substring_append_l, substring_append_r, length_append_shp.
  replace (String.length stem + 4 - String.length stem) with 4 by lia.
  done.
Qed.

Lemma glob_shp_elem (src_path : path) :
  src_path ∈ glob_shp →
  ∃ parent name,
    parent ∈ glob_parents ∧
    src_path = joinpath (joinpath parent "shp_input") name ∧
    name ∈ listdir w (joinpath parent "shp_input") ∧
    matches_shp name = true.
Proof.
  unfold glob_shp. intros (parent & Hin & Hpar)%list_elem_of_bind.
  apply list_elem_of_fmap in Hin as (name & -> & Hin).
  exists parent, name. split; [done |]. split; [done |].
  apply list_elem_of_In, filter_In in Hin as [Hin Hm].
  by apply list_elem_of_In in Hin.
Qed.

(** Without a wildcard character in the script directory, the files
    selected are files of [SRC_DIR]. *)
Lemma glob_parents_plain :
  existsb has_magic SCRIPT_DIR = false → glob_parents = [SCRIPT_DIR].
Proof. unfold glob_parents. by intros ->. Qed.

(** A path of the output directory is no path of a directory
    [shp_input]. *)
Lemma out_dir_not_shp_input (parent : path) (name name' : string) :
  joinpath OUT_DIR name ≠ joinpath (joinpath parent "shp_input") name'.
Proof.
  unfold OUT_DIR, joinpath. intros [H _]%app_inj_tail.
  apply app_inj_tail in H as [_ H]. discriminate H.
Qed.

(** A path of the output directory is no path of the input directory. *)
Lemma out_dir_not_src_dir (name name' : string) :
  joinpath OUT_DIR name ≠ joinpath SRC_DIR name'.
Proof.
  unfold joinpath, OUT_DIR, SRC_DIR, joinpath.
  rewrite <- !app_assoc. intros H%app_inv_head. discriminate H.
Qed.

(** ** The batch *)

Lemma normalize_crs_trace (gdf : GeoDataFrame) : trace (normalize_crs gdf) = [].
Proof.
  unfold normalize_crs, to_crs.
  destruct (crs gdf) as [c |]; [| reflexivity].
  by destruct (negb _).
Qed.

(** Every file written by the loop body for [src_path] is written at
    [out_path_of src_path]. *)
Lemma convert_trace (flag : bool) (src_path : path) :
  Forall (λ e, ∀ p gdf, e = ToFile p gdf → p = out_path_of src_path)
         (trace (convert flag src_path)).
Proof.
  unfold convert, gpd_read_file, to_file.
  apply Forall_trace_bind; [by repeat constructor |]. intros _ _.
  apply Forall_trace_bind.
  { apply Forall_trace_bind; [by repeat constructor |]. intros _ _.
    destruct (read_file w src_path); constructor. }
  intros gdf0 _. apply Forall_trace_bind.
  { rewrite normalize_crs_trace. constructor. }
  intros gdf _. apply Forall_trace_bind.
  { eapply Forall_impl; [apply Forall_trace_mapM, z_fix_cell_trace |].
    intros e He p g ->. discriminate He. }
  intros col _. apply Forall_trace_bind.
  { apply Forall_trace_bind.
    - constructor; [| constructor]. by intros p g [= <- _].
    - intros _ _. destruct (write_fails w _); constructor. }
  intros _ _. by repeat constructor.
Qed.

(** A loop body that ends normally has written its file. *)
Lemma convert_Done (flag : bool) (src_path : path) :
  result (convert flag src_path) = Done () →
  ∃ gdf, ToFile (out_path_of src_path) gdf ∈ trace (convert flag src_path).
Proof.
  unfold convert. intros H.
  apply bind_Done_inv in H as (_ & _ & H & ->).
  apply bind_Done_inv in H as (gdf0 & _ & H & ->).
  apply bind_Done_inv in H as (gdf & _ & H & ->).
  apply bind_Done_inv in H as (col & _ & H & ->).
  apply bind_Done_inv in H as ([] & _ & _ & ->).
  exists (rename_columns (set_geometry gdf col)).
  rewrite !elem_of_app. do 4 right. left.
  unfold to_file. rewrite trace_bind. apply elem_of_app. left. left.
Qed.

Lemma script_trace (flag : bool) (e : event) :
  e ∈ trace (script flag) →
  e = Mkdir OUT_DIR ∨ e = Stdout (MsgAllDone OUT_DIR) ∨
  e ∈ trace (for_each (convert flag) glob_shp).
Proof.
  unfold script, main.
  destruct (negb (gtx_exists w)); [by intros ?%elem_of_nil |].
  rewrite trace_bind, elem_of_app. intros [He | He].
  { apply list_elem_of_singleton in He. auto. }
  cbn [result emit snd] in He.
  destruct glob_shp as [| p ps]; [by apply elem_of_nil in He |].
  rewrite trace_bind, elem_of_app in He. destruct He as [He | He]; [auto |].
  destruct (result _); try by apply elem_of_nil in He.
  apply list_elem_of_singleton in He. auto.
Qed.

(** C7.  When [glob] finds no shapefile, [main] ends at once with
    [sys.exit] and a message; the process ends with status 1, and the
    only thing it can have done before is the creation of the output
    directory: no file is read, converted or written. *)
Theorem empty_input_aborts (flag : bool) :
  glob_shp = [] →
  main flag = ([], SysExit (NoShp SRC_DIR)) ∧
  exit_status (result (script flag)) = 1%Z ∧
  (∀ e, e ∈ trace (script flag) → e = Mkdir OUT_DIR).
Proof.
  intros Hglob. unfold script, main. rewrite Hglob.
  destruct (negb (gtx_exists w)).
  - repeat split. by intros e ?%elem_of_nil.
  - repeat split. intros e He.
    by apply list_elem_of_singleton in He.
Qed.

(** C8.  When the geoid grid is not at its path, the script ends with
    [sys.exit] and a message before anything else: status 1, and no
    event at all, so no directory is created, no file is read or
    written and no lookup in the grid is made. *)
Theorem missing_grid_aborts (flag : bool) :
  gtx_exists w = false →
  script flag = ([], SysExit (NoGeoid GTX_PATH)) ∧
  exit_status (result (script flag)) = 1%Z ∧
  (∀ e, e ∉ trace (script flag)).
Proof.
  intros Hgtx. unfold script. rewrite Hgtx.
  repeat split. intros e. apply not_elem_of_nil.
Qed.

(** C9.  Every file the script writes is written into [OUT_DIR], under
    the name of an input file with its stem in upper case and its suffix
    (which is [.shp]) kept; such a path is no path of [SRC_DIR], so none
    of the input paths.  And when the script ends normally, every input
    file has been written so. *)
Theorem output_in_out_dir (flag : bool) :
  (∀ p gdf, ToFile p gdf ∈ trace (script flag) →
     ∃ src_path, src_path ∈ glob_shp ∧
       p = joinpath OUT_DIR (upper (path_stem src_path) +:+ path_suffix src_path) ∧
       path_suffix src_path = ".shp" ∧
       path_name src_path = path_stem src_path +:+ ".shp" ∧
       (∀ name, p ≠ joinpath SRC_DIR name) ∧ p ∉ glob_shp) ∧
  (result (script flag) = Done () →
     ∀ src_path, src_path ∈ glob_shp →
       ∃ gdf, ToFile (out_path_of src_path) gdf ∈ trace (script flag)).
Proof.
  split.
  - intros p gdf [He | [He | He]]%script_trace; try discriminate He.
    assert (Hall : Forall (λ e, ∀ p gdf, e = ToFile p gdf →
                      ∃ src_path, src_path ∈ glob_shp ∧ p = out_path_of src_path)
                    (trace (for_each (convert flag) glob_shp))).
    { apply Forall_trace_for_each. intros src Hsrc.
      eapply Forall_impl; [apply convert_trace |].
      intros e H q g ->. exists src. split; [done |]. by eapply H. }
    rewrite Forall_forall in Hall.
    destruct (Hall _ He p gdf eq_refl) as (src & Hsrc & ->).
    exists src. split; [done |]. split; [done |].
    destruct (glob_shp_elem src Hsrc) as (parent & name & _ & -> & _ & Hname).
    destruct (shp_path_split (joinpath parent "shp_input") name Hname)
      as [Hsuf Hstem].
    split; [done |]. split; [done |]. split.
    + intros name'. apply out_dir_not_src_dir.
    + intros (parent' & name' & _ & Heq & _)%glob_shp_elem.
      by apply out_dir_not_shp_input in Heq.
  - unfold script. destruct (negb (gtx_exists w)); [discriminate |].
    intros Hrun src Hsrc.
    apply bind_Done_inv in Hrun as ([] & _ & Hmain & ->).
    unfold main in *. destruct glob_shp as [| p0 ps] eqn:Hglob;
      [discriminate |].
    apply bind_Done_inv in Hmain as ([] & Hloop & _ & ->).
    destruct (for_each_Done _ _ Hloop src Hsrc) as [Hdone Hsub].
    destruct (convert_Done flag src Hdone) as [gdf Hgdf].
    exists gdf. apply elem_of_app. right. apply elem_of_app. left.
    by apply Hsub.
Qed.

(** ** More on [z_fix] *)

Lemma is_xyz_corrected (c : coord) : is_xyz (corrected c) = is_xyz c.
Proof. by destruct c. Qed.

Lemma existsb_fmap {A B} (f : A → B) (p : B → bool) (l : list A) :
  existsb p (f <$> l) = existsb (λ a, p (f a)) l.
Proof. induction l as [| a l IH]; [done |]. csimpl. by rewrite IH. Qed.

Lemma forallb_fmap {A B} (f : A → B) (p : B → bool) (l : list A) :
  forallb p (f <$> l) = forallb (λ a, p (f a)) l.
Proof. induction l as [| a l IH]; [done |]. csimpl. by rewrite IH. Qed.

Lemma existsb_ext_all {A} (p q : A → bool) (l : list A) :
  (∀ a, p a = q a) → existsb p l = existsb q l.
Proof. intros H. induction l as [| a l IH]; simpl; by rewrite ?H, ?IH. Qed.

Lemma forallb_ext_all {A} (p q : A → bool) (l : list A) :
  (∀ a, p a = q a) → forallb p l = forallb q l.
Proof. intros H. induction l as [| a l IH]; simpl; by rewrite ?H, ?IH. Qed.

Lemma existsb_lookup {A} (p : A → bool) (l : list A) (i : nat) (a : A) :
  l !! i = Some a → p a = true → existsb p l = true.
Proof.
  revert i. induction l as [| b l IH]; intros [| i] Hl Ha; try discriminate Hl.
  - injection Hl as ->. simpl. by rewrite Ha.
  - simpl. rewrite (IH i Hl Ha). apply orb_true_r.
Qed.

Lemma forallb_correct_part (cs : list coord) :
  forallb is_xyz (correct_part cs) = forallb is_xyz cs.
Proof.
  unfold correct_part. rewrite forallb_fmap.
  apply forallb_ext_all, is_xyz_corrected.
Qed.

Lemma point_is_xyz_corrected (pt : option coord) :
  point_is_xyz (corrected <$> pt) = point_is_xyz pt.
Proof. destruct pt as [c |]; [apply is_xyz_corrected | done]. Qed.

(** What [z_fix] builds has triples only where its argument has, passes a
    test of [z_fix] where its argument does, and has no empty line where
    its argument has none. *)
Lemma all_xyz_correct_geometry (g : geometry) :
  all_xyz (correct_geometry g) = all_xyz g.
Proof.
  rewrite <- (all_xyz_strip g). unfold correct_geometry.
  destruct (strip g) as [c | cs | cs | sh hs | pts | segs | polys | gs | g0] eqn:Hs;
    try (by rewrite <- (all_xyz_strip g), Hs); cbn [all_xyz].
  - apply point_is_xyz_corrected.
  - apply forallb_correct_part.
  - apply forallb_correct_part.
  - rewrite forallb_fmap. apply forallb_ext_all, point_is_xyz_corrected.
  - rewrite forallb_fmap. apply forallb_ext_all, forallb_correct_part.
Qed.

Lemma handled_correct_geometry (g : geometry) :
  handled (correct_geometry g) = handled g.
Proof.
  rewrite <- (handled_strip g). unfold correct_geometry.
  destruct (strip g) eqn:Hs; try done; by rewrite <- (handled_strip g), Hs.
Qed.

Lemma no_empty_line_correct_geometry (g : geometry) :
  no_empty_line (correct_geometry g) = no_empty_line g.
Proof.
  unfold no_empty_line at 2. unfold correct_geometry.
  destruct (strip g) as [c | cs | cs | sh hs | pts | segs | polys | gs | g0] eqn:Hs;
    try done; try (unfold no_empty_line; by rewrite Hs).
  unfold no_empty_line. cbn [strip]. by rewrite existsb_no_coords_correct_part.
Qed.

(** A geometry that has a coordinate with a Z ordinate in a part has a Z
    ordinate. *)
Lemma coord_at_has_z (g : geometry) (i j : nat) (c : coord) :
  coord_at g i j = Some c → coord_has_z c = true → has_z g = true.
Proof.
  unfold coord_at. intros H Hc.
  induction g as [pt | cs | cs | sh hs | pts | segs | polys | gs | g0 IH];
    cbn [parts has_z] in *; try done.
  - destruct i; [| done]. destruct pt as [c0 |]; [| done].
    destruct j; [| done]. by injection H as ->.
  - destruct i; [| done]. simpl in H. by eapply existsb_lookup.
  - destruct i; [| done]. simpl in H. by eapply existsb_lookup.
  - rewrite list_lookup_fmap in H.
    destruct (pts !! i) as [pt |] eqn:Hpt; [| done]. simpl in H.
    eapply existsb_lookup; [done |].
    destruct pt as [c0 |]; [| done]. destruct j; [| done].
    by injection H as ->.
  - destruct (segs !! i) as [seg |] eqn:Hseg; [| done]. simpl in H.
    eapply existsb_lookup; [done |]. by eapply existsb_lookup.
Qed.

Lemma result_mapM_cons {A B} (f : A → M B) (a : A) (l : list A) :
  result (mapM f (a :: l))
  = match result (f a) with
    | Done b =>
        match result (mapM f l) with
        | Done k => Done (b :: k)
        | SysExit r => SysExit r
        | Raised e => Raised e
        end
    | SysExit r => SysExit r
    | Raised e => Raised e
    end.
Proof.
  cbn [mapM]. rewrite result_bind. destruct (result (f a)); [| done..].
  rewrite result_bind. by destruct (result (mapM f l)).
Qed.

Lemma mapM_ellip_raises (cs : list coord) :
  forallb is_xyz cs = false → result (mapM _ellip cs) = Raised ValueError.
Proof.
  induction cs as [| c cs IH]; cbn [forallb]; intros H; [discriminate |].
  rewrite result_mapM_cons. destruct (is_xyz c) eqn:Hc.
  - rewrite (_ellip_triple c Hc). cbn [result snd]. by rewrite (IH H).
  - by rewrite (_ellip_not_triple c Hc).
Qed.

Lemma multiline_raises (segs : list (list coord)) :
  forallb (forallb is_xyz) segs = false →
  result (mapM (mapM _ellip) segs) = Raised ValueError.
Proof.
  induction segs as [| seg segs IH]; cbn [forallb]; intros H; [discriminate |].
  rewrite result_mapM_cons. destruct (forallb is_xyz seg) eqn:Hseg.
  - rewrite (mapM_ellip seg Hseg). cbn [result snd]. by rewrite (IH H).
  - by rewrite (mapM_ellip_raises seg Hseg).
Qed.

Lemma multipoint_raises (pts : list (option coord)) :
  forallb point_is_xyz pts = false →
  let member := λ pt, c' ← first_coord pt ≫= _ellip; mret (Some c') in
  result (mapM member pts) = Raised ValueError ∨
  result (mapM member pts) = Raised IndexError.
Proof.
  intros H member.
  induction pts as [| [c |] pts IH]; cbn [forallb] in H.
  - discriminate.
  - destruct (is_xyz c) eqn:Hc.
    + assert (Hm : member (Some c) = (lookups c, Done (Some (corrected c)))).
      { unfold member, first_coord.
        rewrite bind_ret_l, (_ellip_triple c Hc), bind_Done.
        simpl. by rewrite app_nil_r. }
      rewrite result_mapM_cons, Hm. cbn [result snd].
      cbn [point_is_xyz from_option] in H. rewrite Hc in H.
      destruct (IH H) as [-> | ->]; auto.
    + left. rewrite result_mapM_cons. unfold member, first_coord.
      by rewrite bind_ret_l, (_ellip_not_triple c Hc).
  - by right.
Qed.

(** X1.  On a geometry with a Z ordinate that passes one of the tests of
    [z_fix] but has a point that is no triple (a pair, or an empty member
    of a [MultiPoint]), [z_fix] does not return: unpacking the pair raises
    [ValueError], indexing the empty coordinates raises [IndexError]. *)
Theorem z_fix_raises_without_triple (g : geometry) :
  handled g = true →
  has_z g = true →
  all_xyz g = false →
  result (z_fix APPLY_Z_FIX g) = Raised ValueError ∨
  result (z_fix APPLY_Z_FIX g) = Raised IndexError.
Proof.
  intros Hc Hz Hxyz. unfold z_fix, APPLY_Z_FIX. rewrite Hz. cbn [andb negb].
  rewrite <- handled_strip in Hc. rewrite <- all_xyz_strip in Hxyz.
  destruct (strip g) as [c | cs | cs | sh hs | pts | segs | polys | gs | g0] eqn:Hs;
    try discriminate Hc; cbn [all_xyz] in *.
  - destruct c as [c |]; [| by right].
    left. unfold first_coord.
    by rewrite bind_ret_l, (_ellip_not_triple c Hxyz).
  - left. by rewrite result_bind, (mapM_ellip_raises cs Hxyz).
  - left. by rewrite result_bind, (mapM_ellip_raises cs Hxyz).
  - rewrite result_bind.
    destruct (multipoint_raises pts Hxyz) as [-> | ->]; auto.
  - left. by rewrite result_bind, (multiline_raises segs Hxyz).
  - by apply strip_not_WithZ in Hs.
Qed.

(** X2.  A [LinearRing] with Z is an instance of [LineString]: [z_fix]
    corrects its coordinates and returns them as a [LineString], so the
    class of the geometry changes. *)
Theorem z_fix_linear_ring_becomes_line (cs : list coord) :
  has_z (LinearRing cs) = true →
  all_xyz (LinearRing cs) = true →
  z_fix APPLY_Z_FIX (LinearRing cs)
  = (cs ≫= lookups, Done (LineString (correct_part cs))) ∧
  type_of (LineString (correct_part cs)) ≠ type_of (LinearRing cs).
Proof.
  intros Hz Hxyz. split; [| done].
  rewrite (z_fix_corrects (LinearRing cs) eq_refl Hz Hxyz eq_refl).
  cbn [parts concat correct_geometry strip]. by rewrite app_nil_r.
Qed.

(** X3.  [z_fix] is not idempotent.  On a geometry with a Z ordinate that
    passes one of its tests, has triples only and no empty line among its
    parts, it returns, and it returns again on its own result; where the
    argument has a triple [(x, y, z)], the first result has a Z ordinate
    again, and the second call looks the same undulation up ([x] and [y]
    are kept) and adds it a second time. *)
Theorem z_fix_twice_adds_twice (g : geometry) :
  handled g = true →
  has_z g = true →
  all_xyz g = true →
  no_empty_line g = true →
  ∃ g' g'' : geometry,
    result (z_fix APPLY_Z_FIX g) = Done g' ∧
    result (z_fix APPLY_Z_FIX g') = Done g'' ∧
    ∀ i j x y z, coord_at g i j = Some (XYZ x y z) →
      has_z g' = true ∧
      coord_at g'' i j
      = Some (XYZ x y (z + undulation_at x y + undulation_at x y)).
Proof.
  intros Hc Hz Hxyz Hne.
  assert (Hc' : handled (correct_geometry g) = true)
    by by rewrite handled_correct_geometry.
  assert (Hxyz' : all_xyz (correct_geometry g) = true)
    by by rewrite all_xyz_correct_geometry.
  assert (Hne' : no_empty_line (correct_geometry g) = true)
    by by rewrite no_empty_line_correct_geometry.
  assert (Hat : ∀ i j x y z, coord_at g i j = Some (XYZ x y z) →
            coord_at (correct_geometry g) i j
            = Some (XYZ x y (z + undulation_at x y))).
  { intros i j x y z. unfold coord_at.
    rewrite (parts_correct_geometry _ Hc), list_lookup_fmap.
    destruct (parts g !! i) as [cs |]; simpl; [| discriminate].
    unfold correct_part. rewrite list_lookup_fmap. by intros ->. }
  exists (correct_geometry g). rewrite (z_fix_corrects g Hc Hz Hxyz Hne).
  destruct (has_z (correct_geometry g)) eqn:Hz'.
  - exists (correct_geometry (correct_geometry g)).
    rewrite (z_fix_corrects _ Hc' Hz' Hxyz' Hne').
    split; [done |]. split; [done |].
    intros i j x y z Hg. split; [done |]. apply Hat in Hg. revert Hg.
    unfold coord_at.
    rewrite (parts_correct_geometry _ Hc'), list_lookup_fmap.
    destruct (parts (correct_geometry g) !! i) as [cs |]; simpl; [| discriminate].
    unfold correct_part. rewrite list_lookup_fmap. by intros ->.
  - exists (correct_geometry g).
    rewrite z_fix_identity_cases by (by rewrite Hz').
    split; [done |]. split; [done |].
    intros i j x y z Hg. apply Hat in Hg.
    by rewrite (coord_at_has_z _ _ _ _ Hg eq_refl) in Hz'.
Qed.

(** X17.  On a [MultiLineString] with a Z ordinate and triples only that
    has an empty line among its parts, [z_fix] makes every call for every
    coordinate and then does not return: the constructor
    [MultiLineString] refuses the empty line with [EmptyPartError]. *)
Theorem z_fix_raises_on_empty_line (g : geometry) :
  type_of g = CMultiLineString →
  has_z g = true →
  all_xyz g = true →
  no_empty_line g = false →
  z_fix APPLY_Z_FIX g
  = (concat (parts g) ≫= lookups, Raised EmptyPartError).
Proof.
  intros Hty Hz Hxyz Hne. unfold z_fix, APPLY_Z_FIX. rewrite Hz. cbn [andb negb].
  rewrite <- type_of_strip in Hty. rewrite <- all_xyz_strip in Hxyz.
  rewrite <- (parts_strip g). unfold no_empty_line in Hne.
  destruct (strip g) as [c | cs | cs | sh hs | pts | segs | polys | gs | g0] eqn:Hs;
    try discriminate Hty; cbn [parts all_xyz] in *.
  - rewrite (mapM_Done _ _ _ segs (multiline_member segs Hxyz)), bind_Done.
    unfold new_MultiLineString. cbn [snd].
    change ((λ seg : list coord, corrected <$> seg) <$> segs)
      with (correct_part <$> segs).
    rewrite existsb_no_coords_correct_part.
    apply negb_false_iff in Hne. rewrite Hne.
    rewrite bind_concat. cbn [fst snd raise]. by rewrite app_nil_r.
  - by apply strip_not_WithZ in Hs.
Qed.

(** ** More on renaming *)

Lemma rename_labels {V} (R : list (string * V)) (mapping : gmap string string) :
  (rename R mapping).*1 = rename_label mapping <$> R.*1.
Proof.
  unfold rename. rewrite <- !list_fmap_compose. apply list_fmap_ext.
  by intros _ [name v] _.
Qed.

(** Two keys of the table have two target names. *)
Lemma RENAME_FIELDS_inj (a b new : string) :
  RENAME_FIELDS !! a = Some new → RENAME_FIELDS !! b = Some new → a = b.
Proof.
  rewrite !RENAME_FIELDS_lookup, !elem_of_cons, !elem_of_nil.
  intros Ha Hb.
  repeat destruct Ha as [Ha | Ha]; try done;
    repeat destruct Hb as [Hb | Hb]; try done; congruence.
Qed.

(** X5.  The field names stay pairwise different after renaming, when
    they are before and no field to rename has its target name already
    in the record. *)
Theorem rename_keeps_names_distinct {V} (R : list (string * V)) :
  NoDup R.*1 →
  (∀ name new, name ∈ R.*1 → RENAME_FIELDS !! name = Some new → new ∉ R.*1) →
  NoDup (rename R RENAME_FIELDS).*1.
Proof.
  intros Hnd Hfree. rewrite rename_labels.
  apply NoDup_fmap_2_strong; [| done].
  intros a b Ha Hb. unfold rename_label.
  destruct (RENAME_FIELDS !! a) as [ta |] eqn:Ea;
    destruct (RENAME_FIELDS !! b) as [tb |] eqn:Eb; simpl.
  - intros <-. by eapply RENAME_FIELDS_inj.
  - intros ->. by destruct (Hfree a b Ha Ea).
  - intros <-. by destruct (Hfree b a Hb Eb).
  - done.
Qed.

(** X6.  When a layer has both a column to rename and a column that
    already bears its target name, the renaming of the columns of the loop
    body leaves both columns under that name, each with its cells: the
    layer to write has a column name twice. *)
Theorem rename_duplicates_target (gdf : GeoDataFrame) (i j : nat)
    (name new : string) (cells cells' : list value) :
  columns gdf !! i = Some (name, cells) →
  columns gdf !! j = Some (new, cells') →
  RENAME_FIELDS !! name = Some new →
  i ≠ j →
  columns (rename_columns gdf) !! i = Some (new, cells) ∧
  columns (rename_columns gdf) !! j = Some (new, cells') ∧
  ¬ NoDup (columns (rename_columns gdf)).*1.
Proof.
  intros Hi Hj Hkey Hij. cbn [rename_columns columns].
  assert (Hi' : rename (columns gdf) RENAME_FIELDS !! i = Some (new, cells)).
  { rewrite (rename_lookup _ _ _ _ _ Hi). unfold rename_label. by rewrite Hkey. }
  assert (Hj' : rename (columns gdf) RENAME_FIELDS !! j = Some (new, cells')).
  { rewrite (rename_lookup _ _ _ _ _ Hj). unfold rename_label.
    by rewrite (RENAME_FIELDS_targets _ _ Hkey). }
  split; [done |]. split; [done |]. intros Hnd. apply Hij.
  apply (NoDup_lookup _ i j new Hnd); rewrite list_lookup_fmap.
  - by rewrite Hi'.
  - by rewrite Hj'.
Qed.

(** ** More on the batch *)

Lemma elem_of_trace_bind {A B} (m : M A) (f : A → M B) (e : event) :
  e ∈ trace (m ≫= f) ↔
  e ∈ trace m ∨ ∃ a, result m = Done a ∧ e ∈ trace (f a).
Proof.
  rewrite trace_bind, elem_of_app. split; intros [H | H]; auto.
  - destruct (result m) as [a | r | x]; [eauto | by apply elem_of_nil in H..].
  - destruct H as (a & -> & H). auto.
Qed.

Lemma elem_of_trace_for_each {A} (f : A → M unit) (l : list A) (e : event) :
  e ∈ trace (for_each f l) → ∃ a, a ∈ l ∧ e ∈ trace (f a).
Proof.
  induction l as [| x l IH]; cbn [for_each]; [by intros ?%elem_of_nil |].
  rewrite elem_of_trace_bind. intros [H | (_ & _ & H)].
  - exists x. split; [left | done].
  - destruct (IH H) as (a & Ha & He). exists a. split; [by right | done].
Qed.

Lemma result_mapM_length {A B} (f : A → M B) (l : list A) (k : list B) :
  result (mapM f l) = Done k → length k = length l.
Proof.
  revert k. induction l as [| a l IH]; intros k.
  - by intros [= <-].
  - rewrite result_mapM_cons. destruct (result (f a)); [| done..].
    destruct (result (mapM f l)) as [k' | |]; [| done..].
    intros [= <-]. simpl. by rewrite (IH k').
Qed.

(** Task 1 always returns, without a call, a layer with the same columns
    and as many geometries, in a CRS that is the target or equal to it. *)
Lemma normalize_crs_Done (gdf : GeoDataFrame) :
  ∃ gdf', normalize_crs gdf = ([], Done gdf') ∧
          columns gdf' = columns gdf ∧
          length (geometry_col gdf') = length (geometry_col gdf) ∧
          ∃ c, crs gdf' = Some c ∧ (c = CRS_TARGET ∨ crs_eq c CRS_TARGET = true).
Proof.
  unfold normalize_crs, to_crs. destruct (crs gdf) as [c |] eqn:Hcrs.
  - destruct (crs_eq c CRS_TARGET) eqn:Heq; simpl.
    + exists gdf. rewrite Hcrs. eauto 10.
    + eexists. split; [done |]. simpl. rewrite length_fmap. eauto 10.
  - eexists. split; [done |]. simpl. eauto 10.
Qed.

(** What the loop body writes, and when: the layer read, after the three
    tasks, once every geometry has been corrected. *)
Lemma convert_ToFile_inv (flag : bool) (p q : path) (g : GeoDataFrame) :
  ToFile q g ∈ trace (convert flag p) →
  ∃ gdf0 gdf col,
    read_file w p = Some gdf0 ∧
    normalize_crs gdf0 = ([], Done gdf) ∧
    result (mapM (z_fix_cell flag) (geometry_col gdf)) = Done col ∧
    g = rename_columns (set_geometry gdf col) ∧
    q = out_path_of p.
Proof.
  unfold convert. rewrite elem_of_trace_bind.
  intros [H | (_ & _ & H)]; [by apply list_elem_of_singleton in H |].
  apply elem_of_trace_bind in H as [H | (gdf0 & Hread & H)].
  { unfold gpd_read_file in H.
    apply elem_of_trace_bind in H as [H | (_ & _ & H)];
      [by apply list_elem_of_singleton in H |].
    destruct (read_file w p); by apply elem_of_nil in H. }
  assert (Hr : read_file w p = Some gdf0).
  { unfold gpd_read_file in Hread. rewrite result_bind in Hread.
    cbn [result emit snd] in Hread.
    destruct (read_file w p) as [gdf1 |]; [| discriminate Hread].
    by injection Hread as ->. }
  apply elem_of_trace_bind in H as [H | (gdf & Hnorm & H)].
  { rewrite normalize_crs_trace in H. by apply elem_of_nil in H. }
  assert (Hn : normalize_crs gdf0 = ([], Done gdf)).
  { destruct (normalize_crs_Done gdf0) as (gdf' & Hn & _).
    rewrite Hn in Hnorm |- *. by injection Hnorm as ->. }
  apply elem_of_trace_bind in H as [H | (col & Hcol & H)].
  { pose proof (Forall_trace_mapM _ (z_fix_cell flag) (geometry_col gdf)
                  (z_fix_cell_trace flag)) as Hall.
    rewrite Forall_forall in Hall. by apply Hall in H. }
  exists gdf0, gdf, col. do 3 (split; [done |]).
  apply elem_of_trace_bind in H as [H | (_ & _ & H)];
    [| by apply list_elem_of_singleton in H].
  unfold to_file in H.
  apply elem_of_trace_bind in H as [H | (_ & _ & H)].
  - apply list_elem_of_singleton in H. by injection H as -> ->.
  - destruct (write_fails w _); by apply elem_of_nil in H.
Qed.

Lemma script_ToFile_inv (flag : bool) (q : path) (g : GeoDataFrame) :
  ToFile q g ∈ trace (script flag) →
  ∃ p gdf0 gdf col,
    p ∈ glob_shp ∧
    read_file w p = Some gdf0 ∧
    normalize_crs gdf0 = ([], Done gdf) ∧
    result (mapM (z_fix_cell flag) (geometry_col gdf)) = Done col ∧
    g = rename_columns (set_geometry gdf col) ∧
    q = out_path_of p.
Proof.
  intros [He | [He | He]]%script_trace; try discriminate He.
  apply elem_of_trace_for_each in He as (p & Hp & He).
  apply convert_ToFile_inv in He as (gdf0 & gdf & col & H).
  exists p, gdf0, gdf, col. tauto.
Qed.

(** X8.  Every layer the script writes is the layer read from an input
    file after the three tasks in order: the CRS normalised, every
    geometry through [z_fix] (all of them returned), the columns renamed;
    it is written at the output path of that input. *)
Theorem written_layer_is_pipeline (flag : bool) (q : path) (g : GeoDataFrame) :
  ToFile q g ∈ trace (script flag) →
  ∃ p gdf0 gdf col,
    p ∈ glob_shp ∧
    read_file w p = Some gdf0 ∧
    normalize_crs gdf0 = ([], Done gdf) ∧
    result (mapM (z_fix_cell flag) (geometry_col gdf)) = Done col ∧
    g = rename_columns (set_geometry gdf col) ∧
    q = out_path_of p.
Proof. apply script_ToFile_inv. Qed.

(** X9.  A written layer has as many geometries as the layer read, and
    its attribute columns are those read, in the same order with the
    same cells, under the renamed labels: no feature and no column is
    dropped, added or moved. *)
Theorem written_layer_keeps_features (flag : bool) (q : path) (g : GeoDataFrame) :
  ToFile q g ∈ trace (script flag) →
  ∃ p gdf0,
    p ∈ glob_shp ∧
    read_file w p = Some gdf0 ∧
    length (geometry_col g) = length (geometry_col gdf0) ∧
    (columns g).*2 = (columns gdf0).*2 ∧
    (columns g).*1 = rename_label RENAME_FIELDS <$> (columns gdf0).*1.
Proof.
  intros (p & gdf0 & gdf & col & Hp & Hread & Hn & Hcol & -> & _)%script_ToFile_inv.
  exists p, gdf0. do 2 (split; [done |]).
  destruct (normalize_crs_Done gdf0) as (gdf' & Hn' & Hcols & Hlen & _).
  rewrite Hn in Hn'. injection Hn' as <-.
  cbn [rename_columns set_geometry geometry_col columns].
  rewrite (result_mapM_length _ _ _ Hcol), Hlen, rename_labels, Hcols.
  split; [done |]. split; [| done].
  unfold rename. rewrite <- !list_fmap_compose. apply list_fmap_ext.
  by intros _ [name cells] _.
Qed.

(** X10.  Every written layer has a CRS, and it is the target CRS or one
    that pyproj finds equal to it. *)
Theorem written_layer_in_target_crs (flag : bool) (q : path) (g : GeoDataFrame) :
  ToFile q g ∈ trace (script flag) →
  ∃ c, crs g = Some c ∧ (c = CRS_TARGET ∨ crs_eq c CRS_TARGET = true).
Proof.
  intros (p & gdf0 & gdf & col & _ & _ & Hn & _ & -> & _)%script_ToFile_inv.
  destruct (normalize_crs_Done gdf0) as (gdf' & Hn' & _ & _ & Hcrs).
  rewrite Hn in Hn'. by injection Hn' as <-.
Qed.

Lemma length_append (s t : string) :
  String.length (s +:+ t) = String.length s + String.length t.
Proof.
  induction s as [| c s IH]; [reflexivity |].
  rewrite append_cons. simpl. by rewrite IH.
Qed.

Lemma append_inv_tail (s1 s2 t : string) : s1 +:+ t = s2 +:+ t → s1 = s2.
Proof.
  revert s2. induction s1 as [| c s1 IH]; intros [| d s2] H.
  - reflexivity.
  - apply (f_equal String.length) in H.
    rewrite !length_append in H. simpl in H. lia.
  - apply (f_equal String.length) in H.
    rewrite !length_append in H. simpl in H. lia.
  - rewrite !append_cons in H. injection H as -> H. f_equal. by apply IH.
Qed.

Lemma joinpath_inj (dir : path) (a b : string) :
  joinpath dir a = joinpath dir b → a = b.
Proof. unfold joinpath. intros H%app_inv_head. by injection H. Qed.

(** X7.  Two input files are written at the same output path exactly
    when their stems have the same upper-case form: inputs whose names
    differ in case only share one output file, and the later one
    replaces the earlier one. *)
Theorem out_path_clash (p q : path) :
  p ∈ glob_shp →
  q ∈ glob_shp →
  out_path_of p = out_path_of q ↔ upper (path_stem p) = upper (path_stem q).
Proof.
  intros (pn & n & _ & -> & _ & Hn)%glob_shp_elem
         (pm & m & _ & -> & _ & Hm)%glob_shp_elem.
  destruct (shp_path_split (joinpath pn "shp_input") n Hn) as [Hsn _].
  destruct (shp_path_split (joinpath pm "shp_input") m Hm) as [Hsm _].
  unfold out_path_of. rewrite Hsn, Hsm. split.
  - intros H%joinpath_inj. by apply append_inv_tail in H.
  - by intros ->.
Qed.

Lemma for_each_fails {A} (f : A → M unit) (done : list A) (x : A) (later : list A) :
  (∀ a, a ∈ done → result (f a) = Done ()) →
  result (f x) ≠ Done () →
  result (for_each f (done ++ x :: later)) = result (f x) ∧
  trace (for_each f (done ++ x :: later))
  = trace (for_each f done) ++ trace (f x).
Proof.
  intros Hdone Hx. induction done as [| a done IH]; cbn [for_each app].
  - rewrite result_bind, trace_bind.
    destruct (result (f x)) as [[] | r | e]; [done | by rewrite app_nil_r..].
  - rewrite !result_bind, !trace_bind.
    rewrite (Hdone a) by left.
    destruct IH as [-> ->]; [intros b Hb; apply Hdone; by right |].
    by rewrite app_assoc.
Qed.

(** X11.  A file whose conversion does not end normally ends the whole
    run with that failure and status 1: the files after it in the listing
    are not touched (the trace ends with the events of the failing file),
    and the files before it stay written. *)
Theorem batch_stops_at_first_failure (flag : bool) (done : list path)
    (p : path) (later : list path) :
  gtx_exists w = true →
  glob_shp = done ++ p :: later →
  (∀ q, q ∈ done → result (convert flag q) = Done ()) →
  result (convert flag p) ≠ Done () →
  result (script flag) = result (convert flag p) ∧
  exit_status (result (script flag)) = 1%Z ∧
  trace (script flag)
  = Mkdir OUT_DIR :: trace (for_each (convert flag) done)
      ++ trace (convert flag p).
Proof.
  intros Hgtx Hglob Hdone Hp.
  destruct (for_each_fails (convert flag) done p later Hdone Hp) as [Hr Ht].
  assert (Hmain : main flag
            = (trace (for_each (convert flag) done) ++ trace (convert flag p),
               result (convert flag p))).
  { unfold main. rewrite Hglob.
    transitivity (for_each (convert flag) (done ++ p :: later);;
                  emit (Stdout (MsgAllDone OUT_DIR))).
    { by destruct done. }
    destruct (for_each _ _) as [tr o]. cbn [trace result fst snd] in *.
    subst tr o. destruct (result (convert flag p)) as [[] | r | e]; done. }
  unfold script. rewrite Hgtx. cbn [negb].
  rewrite result_bind, trace_bind, Hmain. cbn [result trace emit fst snd].
  split; [done |]. split; [| done].
  destruct (result (convert flag p)) as [[] | r | e]; done.
Qed.

Lemma convert_reads (flag : bool) (p q : path) :
  ReadFile q ∈ trace (convert flag p) → q = p.
Proof.
  pose proof (convert_trace flag p) as Hw. unfold convert in *.
  rewrite elem_of_trace_bind.
  intros [H | (_ & _ & H)]; [by apply list_elem_of_singleton in H |].
  apply elem_of_trace_bind in H as [H | (gdf0 & _ & H)].
  { unfold gpd_read_file in H.
    apply elem_of_trace_bind in H as [H | (_ & _ & H)].
    - apply list_elem_of_singleton in H. by injection H.
    - destruct (read_file w p); by apply elem_of_nil in H. }
  apply elem_of_trace_bind in H as [H | (gdf & _ & H)].
  { rewrite normalize_crs_trace in H. by apply elem_of_nil in H. }
  apply elem_of_trace_bind in H as [H | (col & _ & H)].
  { pose proof (Forall_trace_mapM _ (z_fix_cell flag) (geometry_col gdf)
                  (z_fix_cell_trace flag)) as Hall.
    rewrite Forall_forall in Hall. by apply Hall in H. }
  apply elem_of_trace_bind in H as [H | (_ & _ & H)];
    [| by apply list_elem_of_singleton in H].
  unfold to_file in H.
  apply elem_of_trace_bind in H as [H | (_ & _ & H)].
  - by apply list_elem_of_singleton in H.
  - destruct (write_fails w _); by apply elem_of_nil in H.
Qed.

(** X12.  The script reads nothing but what [glob] returned: every file
    read is an entry, not hidden and with a name that ends in [.shp], of
    a directory [shp_input]; that directory is [SRC_DIR] when the script
    directory has no wildcard character, and otherwise lies in one of the
    directories that the script directory matches as a pattern. *)
Theorem reads_only_globbed (flag : bool) (q : path) :
  ReadFile q ∈ trace (script flag) →
  q ∈ glob_shp ∧
  ∃ parent name,
    q = joinpath (joinpath parent "shp_input") name ∧
    name ∈ listdir w (joinpath parent "shp_input") ∧
    matches_shp name = true ∧
    if existsb has_magic SCRIPT_DIR then parent ∈ glob_dirs w SCRIPT_DIR
    else joinpath parent "shp_input" = SRC_DIR.
Proof.
  intros [He | [He | He]]%script_trace; try discriminate He.
  apply elem_of_trace_for_each in He as (p & Hp & He).
  apply convert_reads in He as ->. split; [done |].
  apply glob_shp_elem in Hp as (parent & name & Hpar & -> & Hin & Hm).
  exists parent, name. do 3 (split; [done |]).
  unfold glob_parents in Hpar. destruct (existsb has_magic SCRIPT_DIR); [done |].
  by apply list_elem_of_singleton in Hpar as ->.
Qed.

Lemma convert_disabled_trace (p : path) :
  Forall (λ e, is_transform e = false) (trace (convert false p)).
Proof.
  unfold convert, gpd_read_file, to_file.
  apply Forall_trace_bind; [by repeat constructor |]. intros _ _.
  apply Forall_trace_bind.
  { apply Forall_trace_bind; [by repeat constructor |]. intros _ _.
    destruct (read_file w p); constructor. }
  intros gdf0 _. apply Forall_trace_bind.
  { rewrite normalize_crs_trace. constructor. }
  intros gdf _. rewrite mapM_z_fix_cell_disabled.
  apply Forall_trace_bind; [constructor |].
  intros col _. apply Forall_trace_bind.
  { apply Forall_trace_bind; [by repeat constructor |].
    intros _ _. destruct (write_fails w _); constructor. }
  intros _ _. by repeat constructor.
Qed.

(** X13.  With the flag off, a run never calls [to_wgs84] nor [vshift],
    whatever the layers hold. *)
Theorem disabled_run_calls_no_transformer :
  Forall (λ e, is_transform e = false) (trace (script false)).
Proof.
  unfold script. destruct (negb (gtx_exists w)); [constructor |].
  apply Forall_trace_bind; [by repeat constructor |]. intros _ _.
  unfold main. destruct glob_shp as [| p ps] eqn:Hglob; [constructor |].
  apply Forall_trace_bind; [| intros; by repeat constructor].
  apply Forall_trace_for_each. intros q _. apply convert_disabled_trace.
Qed.

Lemma transform_paths (tr : list event) :
  Forall (λ e, is_transform e = true) tr →
  written_paths tr = [] ∧ read_paths tr = [].
Proof.
  induction 1 as [| e tr He _ [IHw IHr]]; [done |].
  unfold written_paths, read_paths in *.
  destruct e; try discriminate He; cbn [omap list_omap]; by rewrite ?IHw, ?IHr.
Qed.

(** A loop body that ends normally has read its file once and written
    its output once. *)
Lemma convert_Done_paths (flag : bool) (p : path) :
  result (convert flag p) = Done () →
  written_paths (trace (convert flag p)) = [out_path_of p] ∧
  read_paths (trace (convert flag p)) = [p].
Proof.
  unfold convert. intros H.
  apply bind_Done_inv in H as ([] & _ & H & ->).
  apply bind_Done_inv in H as (gdf0 & Hread & H & ->).
  apply bind_Done_inv in H as (gdf & _ & H & ->).
  apply bind_Done_inv in H as (col & _ & H & ->).
  apply bind_Done_inv in H as ([] & Hwrite & _ & ->).
  rewrite normalize_crs_trace.
  destruct (transform_paths _ (Forall_trace_mapM _ (z_fix_cell flag)
              (geometry_col gdf) (z_fix_cell_trace flag))) as [Hw Hr].
  assert (Hrt : trace (gpd_read_file p) = [ReadFile p]).
  { unfold gpd_read_file in *. rewrite trace_bind. cbn [trace result emit fst snd].
    by destruct (read_file w p). }
  assert (Hwt : trace (to_file (rename_columns (set_geometry gdf col))
                         (out_path_of p))
                = [ToFile (out_path_of p) (rename_columns (set_geometry gdf col))]).
  { unfold to_file in *. rewrite trace_bind. cbn [trace result emit fst snd].
    by destruct (write_fails w _). }
  rewrite Hrt, Hwt. unfold written_paths, read_paths in *.
  rewrite !omap_app, Hw, Hr. done.
Qed.

Lemma for_each_Done_paths (flag : bool) (l : list path) :
  result (for_each (convert flag) l) = Done () →
  written_paths (trace (for_each (convert flag) l)) = out_path_of <$> l ∧
  read_paths (trace (for_each (convert flag) l)) = l.
Proof.
  induction l as [| p l IH]; [done |]. cbn [for_each]. intros H.
  apply bind_Done_inv in H as ([] & Hp & Hl & ->).
  destruct (convert_Done_paths flag p Hp) as [Hw Hr].
  destruct (IH Hl) as [IHw IHr].
  unfold written_paths, read_paths in *.
  rewrite !omap_app, Hw, Hr, IHw, IHr. done.
Qed.

(** X14.  A run that ends normally (status 0) found the grid and at
    least one input, and has read every input once and written one file
    for each, in the order of the listing. *)
Theorem normal_run_one_output_per_input (flag : bool) :
  result (script flag) = Done () →
  gtx_exists w = true ∧
  glob_shp ≠ [] ∧
  read_paths (trace (script flag)) = glob_shp ∧
  written_paths (trace (script flag)) = out_path_of <$> glob_shp.
Proof.
  unfold script. destruct (gtx_exists w); [| discriminate]. cbn [negb].
  intros H. apply bind_Done_inv in H as ([] & _ & Hmain & ->).
  unfold main in *. destruct glob_shp as [| p0 ps] eqn:Hglob; [discriminate |].
  apply bind_Done_inv in Hmain as ([] & Hloop & _ & ->).
  destruct (for_each_Done_paths flag _ Hloop) as [Hw Hr].
  split; [done |]. split; [done |].
  unfold written_paths, read_paths in *.
  rewrite !omap_app, Hw, Hr. cbn. by rewrite !app_nil_r.
Qed.

(** X15.  Task 1 applied to its own result changes nothing, provided
    pyproj finds the target CRS equal to itself. *)
Theorem normalize_crs_idempotent (gdf : GeoDataFrame) :
  crs_eq CRS_TARGET CRS_TARGET = true →
  normalize_crs gdf ≫= normalize_crs = normalize_crs gdf.
Proof.
  intros Hrefl. unfold normalize_crs, to_crs.
  destruct (crs gdf) as [c |] eqn:Hcrs.
  - destruct (crs_eq c CRS_TARGET) eqn:Heq; cbn [negb].
    + by rewrite bind_ret_l, Hcrs, Heq.
    + rewrite bind_ret_l. cbn [crs]. by rewrite Hrefl.
  - rewrite bind_ret_l. cbn [crs set_crs]. by rewrite Hrefl.
Qed.

Lemma trace_mapM_cons {A B} (f : A → M B) (a : A) (l : list A) :
  trace (mapM f (a :: l))
  = trace (f a) ++ match result (f a) with
                   | Done _ => trace (mapM f l)
                   | _ => []
                   end.
Proof.
  cbn [mapM]. rewrite trace_bind. destruct (result (f a)); [| done..].
  rewrite trace_bind. destruct (result (mapM f l)); simpl; by rewrite app_nil_r.
Qed.

Lemma bind_singleton {A} (l : list A) : l ≫= (λ a, [a]) = l.
Proof. induction l as [| a l IH]; [done |]. csimpl. by rewrite IH. Qed.

Lemma bind_id_concat {A} (l : list (list A)) : l ≫= (λ s, s) = concat l.
Proof. induction l as [| s l IH]; [done |]. csimpl. by rewrite IH. Qed.

Lemma bind_option_list {A} (l : list (option A)) :
  l ≫= option_list = concat (option_list <$> l).
Proof. induction l as [| o l IH]; [done |]. csimpl. by rewrite IH. Qed.

Lemma runs_over_ellip (c : coord) : runs_over (_ellip c) [c].
Proof.
  unfold runs_over. destruct (is_xyz c) eqn:Hc.
  - exists [c]. rewrite (_ellip_triple c Hc). csimpl.
    rewrite app_nil_r, Hc. done.
  - exists []. rewrite (_ellip_not_triple c Hc).
    split; [done |]. split; [apply prefix_nil |]. split; [done |].
    intros a H. discriminate H.
Qed.

Lemma runs_over_bind_pure {A B} (m : M A) (k : A → M B) (its : list coord) :
  runs_over m its → (∀ a, trace (k a) = []) → runs_over (m ≫= k) its.
Proof.
  intros (cs & Ht & Hp & Hx & Hd) Hk. exists cs.
  rewrite trace_bind, result_bind, Ht.
  destruct (result m) as [a | r | e]; rewrite ?Hk, app_nil_r;
    do 3 (split; [done |]).
  - intros b _. by apply (Hd a).
  - intros b H. discriminate H.
  - intros b H. discriminate H.
Qed.

Lemma runs_over_first_ellip (pt : option coord) :
  runs_over (first_coord pt ≫= _ellip) (option_list pt).
Proof.
  destruct pt as [c |]; unfold first_coord.
  - rewrite bind_ret_l. apply runs_over_ellip.
  - exists []. do 3 (split; [done |]). intros a H. discriminate H.
Qed.

Lemma runs_over_mapM {A B} (f : A → M B) (items : A → list coord) (l : list A) :
  (∀ a, runs_over (f a) (items a)) → runs_over (mapM f l) (l ≫= items).
Proof.
  intros Hf. induction l as [| a l IH].
  - exists []. do 3 (split; [done |]). done.
  - destruct (Hf a) as (cs1 & Ht1 & Hp1 & Hx1 & Hd1).
    destruct IH as (cs2 & Ht2 & Hp2 & Hx2 & Hd2).
    unfold runs_over. rewrite trace_mapM_cons, result_mapM_cons, Ht1.
    change ((a :: l) ≫= items) with (items a ++ (l ≫= items)).
    destruct (result (f a)) as [b | r | e].
    + rewrite (Hd1 b eq_refl) in *. exists (items a ++ cs2).
      rewrite Ht2, bind_app, forallb_app, Hx1, Hx2.
      split; [done |]. split; [by apply prefix_app |]. split; [done |].
      intros k Hk. destruct (result (mapM f l)) as [k' | |]; [| done..].
      by rewrite (Hd2 k' eq_refl).
    + exists cs1. rewrite app_nil_r. split; [done |].
      split; [by apply prefix_app_r |]. split; [done |]. intros k H. discriminate H.
    + exists cs1. rewrite app_nil_r. split; [done |].
      split; [by apply prefix_app_r |]. split; [done |]. intros k H. discriminate H.
Qed.

Lemma runs_over_mapM_ellip (cs : list coord) : runs_over (mapM _ellip cs) cs.
Proof.
  rewrite <- (bind_singleton cs) at 2.
  apply runs_over_mapM, runs_over_ellip.
Qed.

(** X16.  In every call of [z_fix], also one that raises, the calls of
    the transformers are made for the coordinates of the geometry, in
    their order and from the first on, as far as the call gets; all of
    them are triples, and for each triple [(x, y, z)] the calls are a
    reprojection of [(x, y)], then a lookup in the grid at the longitude
    and latitude it gave and at height 0.  The grid is never asked with
    the height of the feature, nor at a position that was not reprojected
    just before. *)
Theorem z_fix_calls_in_pairs (flag : bool) (g : geometry) :
  ∃ cs : list coord,
    trace (z_fix flag g) = cs ≫= lookups ∧
    cs `prefix_of` concat (parts g) ∧
    forallb is_xyz cs = true ∧
    ∀ x y z, lookups (XYZ x y z)
             = [ToWgs84 x y; VShift (to_wgs84 x y).1 (to_wgs84 x y).2 0].
Proof.
  cut (∃ cs, trace (z_fix flag g) = cs ≫= lookups ∧
             cs `prefix_of` concat (parts g) ∧ forallb is_xyz cs = true).
  { intros (cs & H1 & H2 & H3). exists cs. done. }
  assert (Hnil : ∃ cs, [] = cs ≫= lookups ∧
                       cs `prefix_of` concat (parts g) ∧ forallb is_xyz cs = true).
  { exists []. split; [done |]. split; [apply prefix_nil | done]. }
  assert (Hrun : ∀ m : M geometry, runs_over m (concat (parts g)) →
            ∃ cs, trace m = cs ≫= lookups ∧
                  cs `prefix_of` concat (parts g) ∧ forallb is_xyz cs = true).
  { intros m (cs & H1 & H2 & H3 & _). by exists cs. }
  unfold z_fix. destruct (negb _); [apply Hnil |].
  rewrite <- (parts_strip g) in *.
  destruct (strip g) as [c | cs | cs | sh hs | pts | segs | polys | gs | g0] eqn:Hs;
    try apply Hnil; apply Hrun; cbn [parts concat]; rewrite ?app_nil_r.
  - apply runs_over_bind_pure; [apply runs_over_first_ellip | done].
  - apply runs_over_bind_pure; [apply runs_over_mapM_ellip | done].
  - apply runs_over_bind_pure; [apply runs_over_mapM_ellip | done].
  - apply runs_over_bind_pure; [| done].
    rewrite <- bind_option_list. apply runs_over_mapM. intros pt.
    apply runs_over_bind_pure; [apply runs_over_first_ellip | done].
  - apply runs_over_bind_pure; [| apply new_MultiLineString_trace].
    rewrite <- bind_id_concat. apply runs_over_mapM, runs_over_mapM_ellip.
Qed.

End Script.

(** ** The dispatch of [z_fix] and the classes *)

(** Apart from [LinearRing], which is a [LineString] to [isinstance], the
    geometries that pass a test of [z_fix] are those of the four classes. *)
Lemma handled_supported_class (g : geometry) :
  type_of g ≠ CLinearRing →
  handled g = supported_class (type_of g).
Proof. unfold handled, isinstance. by destruct (type_of g). Qed.

Lemma polygon_not_handled (shell : list coord) (holes : list (list coord)) :
  handled (Polygon shell holes) = false.
Proof. reflexivity. Qed.

(** ** The script on sample data *)

Example z_fix_sample_line :
  z_fix sample_to_wgs84 sample_vshift APPLY_Z_FIX sample_line
  = ([ToWgs84 260096 4980736; VShift 127 38 0;
      ToWgs84 262144 5111808; VShift 128 39 0],
     Done (LineString [XYZ 260096 4980736 30.625;
                       XYZ 262144 5111808 33.375])).
Proof. vm_compute. reflexivity. Qed.

Example z_fix_linear_ring :
  result (z_fix sample_to_wgs84 sample_vshift APPLY_Z_FIX
            (LinearRing [XYZ 0 0 1; XYZ 16384 0 1; XYZ 0 0 1]))
  = Done (LineString [XYZ 0 0 1; XYZ 16384 0 2; XYZ 0 0 1]).
Proof. vm_compute. reflexivity. Qed.

Example z_fix_mixed_multipoint :
  result (z_fix sample_to_wgs84 sample_vshift APPLY_Z_FIX
            (MultiPoint [Some (XYZ 1 2 3); Some (XY 1 2)]))
  = Raised ValueError.
Proof. vm_compute. reflexivity. Qed.

Example z_fix_cell_missing :
  z_fix_cell sample_to_wgs84 sample_vshift APPLY_Z_FIX None
  = ([], Raised AttributeError).
Proof. reflexivity. Qed.

(** The scenario of a file without CRS, with one 3D line and a field
    [l_linkid]: the layer written has the target CRS, the heights raised
    by the undulation, and the field under the name [L_LinkID]. *)
Example script_sample_world :
  script sample_to_wgs84 sample_vshift sample_crs_eq sample_transform
    ascii_upper sample_dir sample_world APPLY_Z_FIX
  = (let written :=
       {| crs := Some (EPSG 32652);
          geometry_col :=
            [Some (LineString [XYZ 260096 4980736 30.625;
                               XYZ 262144 5111808 33.375])];
          columns := [("L_LinkID", [VStr "A1"]); ("Name", [VStr "n"])] |} in
     let lookups :=
       [ToWgs84 260096 4980736; VShift 127 38 0;
        ToWgs84 262144 5111808; VShift 128 39 0] in
     ([Mkdir ["home"; "gis"; "shp_output"];
       Stdout (MsgFile "roads.shp");
       ReadFile ["home"; "gis"; "shp_input"; "roads.shp"]]
      ++ lookups ++
      [ToFile ["home"; "gis"; "shp_output"; "ROADS.shp"] written;
       Stdout (MsgSaved ["home"; "gis"; "shp_output"; "ROADS.shp"]);
       Stdout (MsgFile "a.b.shp");
       ReadFile ["home"; "gis"; "shp_input"; "a.b.shp"]]
      ++ lookups ++
      [ToFile ["home"; "gis"; "shp_output"; "A.B.shp"] written;
       Stdout (MsgSaved ["home"; "gis"; "shp_output"; "A.B.shp"]);
       Stdout (MsgAllDone ["home"; "gis"; "shp_output"])],
     Done ())).
Proof. vm_compute. reflexivity. Qed.

Example normalize_crs_assigns :
  normalize_crs sample_crs_eq sample_transform sample_gdf
  = ([], Done sample_gdf_target).
Proof. reflexivity. Qed.

Example normalize_crs_keeps :
  normalize_crs sample_crs_eq sample_transform sample_gdf_target
  = ([], Done sample_gdf_target).
Proof. reflexivity. Qed.

Example normalize_crs_reprojects :
  result (normalize_crs sample_crs_eq sample_transform sample_gdf_wkt)
  = Done {| crs := Some (EPSG 32652);
            geometry_col :=
              [Some (LineString [XYZ 760096 4980736 10; XYZ 762144 5111808 12.5]);
               None];
            columns := [("id", [VInt 1; VInt 2])] |}.
Proof. vm_compute. reflexivity. Qed.

Example rename_case_sensitive :
  rename [("ID", 1); ("Id", 2); ("id", 3); ("LINKID", 4); ("linkid ", 5)] RENAME_FIELDS
  = [("ID", 1); ("Id", 2); ("ID", 3); ("LINKID", 4); ("linkid ", 5)].
Proof. vm_compute. reflexivity. Qed.

(** ** Witnesses *)

Lemma z_fix_adds_undulation_witness :
  supported_class (type_of sample_line) = true ∧
  has_z sample_line = true ∧
  all_xyz sample_line = true ∧
  no_empty_line sample_line = true ∧
  ∃ g' : geometry,
    z_fix sample_to_wgs84 sample_vshift APPLY_Z_FIX sample_line
    = (concat (parts sample_line) ≫= lookups sample_to_wgs84, Done g') ∧
    type_of g' = type_of sample_line ∧
    parts g' = correct_part sample_to_wgs84 sample_vshift <$> parts sample_line ∧
    part_lengths g' = part_lengths sample_line ∧
    ∀ i j x y z, coord_at sample_line i j = Some (XYZ x y z) →
      coord_at g' i j
      = Some (XYZ x y (z + undulation_at sample_to_wgs84 sample_vshift x y)).
Proof.
  do 4 (split; [reflexivity |]).
  apply (z_fix_adds_undulation sample_to_wgs84 sample_vshift sample_line);
    reflexivity.
Defined.

(** The claim without the conditions on the points and the parts fails: a
    [MultiLineString] of triples with a Z ordinate and an empty line
    among its parts is refused by the constructor, after the calls for
    its coordinates. *)
Lemma z_fix_empty_line_counterexample :
  supported_class (type_of sample_gap) = true ∧
  has_z sample_gap = true ∧
  all_xyz sample_gap = true ∧
  z_fix sample_to_wgs84 sample_vshift APPLY_Z_FIX sample_gap
  = ([ToWgs84 260096 4980736; VShift 127 38 0;
      ToWgs84 262144 5111808; VShift 128 39 0],
     Raised EmptyPartError).
Proof. do 3 (split; [reflexivity |]). vm_compute. reflexivity. Qed.

Lemma z_fix_unsupported_unchanged_witness :
  handled sample_polygon = false ∧
  has_z sample_polygon = true ∧
  z_fix sample_to_wgs84 sample_vshift APPLY_Z_FIX sample_polygon
  = ([], Done sample_polygon).
Proof.
  split; [reflexivity |]. split; [reflexivity |].
  apply (z_fix_unsupported_unchanged sample_to_wgs84 sample_vshift
           APPLY_Z_FIX sample_polygon).
  reflexivity.
Defined.

Lemma z_fix_without_z_identity_witness :
  has_z sample_flat = false ∧
  z_fix sample_to_wgs84 sample_vshift APPLY_Z_FIX sample_flat
  = ([], Done sample_flat).
Proof.
  split; [reflexivity |].
  apply (z_fix_without_z_identity sample_to_wgs84 sample_vshift
           APPLY_Z_FIX sample_flat).
  reflexivity.
Defined.

Lemma rename_carries_fields_witness :
  record_at sample_gdf 0 !! 0 = Some ("l_linkid", Some (VStr "A1")) ∧
  (∀ new, RENAME_FIELDS !! "l_linkid" = Some new →
          record_at (rename_columns sample_gdf) 0 !! 0
          = Some (new, Some (VStr "A1"))) ∧
  (RENAME_FIELDS !! "l_linkid" = None →
          record_at (rename_columns sample_gdf) 0 !! 0
          = Some ("l_linkid", Some (VStr "A1"))) ∧
  (is_Some (RENAME_FIELDS !! "l_linkid") ↔
     "l_linkid" ∈ ["id"; "linkid"; "l_linkid"; "r_linkid"; "tonodeid";
                   "fromnodeid"; "roadrank"; "roadno"; "laneno"; "distance";
                   "maxspeed"]) ∧
  length (record_at (rename_columns sample_gdf) 0)
  = length (record_at sample_gdf 0).
Proof.
  split; [reflexivity |].
  apply (rename_carries_fields sample_gdf 0 0 "l_linkid" (Some (VStr "A1"))).
  reflexivity.
Defined.

Example rename_columns_sample :
  record_at (rename_columns sample_gdf) 0
  = [("L_LinkID", Some (VStr "A1")); ("Name", Some (VStr "n"))].
Proof. reflexivity. Qed.

Lemma empty_input_aborts_witness :
  glob_shp sample_dir empty_world = [] ∧
  main sample_to_wgs84 sample_vshift sample_crs_eq sample_transform
    ascii_upper sample_dir empty_world APPLY_Z_FIX
  = ([], SysExit (NoShp (SRC_DIR sample_dir))) ∧
  exit_status (result (script sample_to_wgs84 sample_vshift sample_crs_eq
                         sample_transform ascii_upper sample_dir empty_world
                         APPLY_Z_FIX)) = 1%Z ∧
  (∀ e, e ∈ trace (script sample_to_wgs84 sample_vshift sample_crs_eq
                     sample_transform ascii_upper sample_dir empty_world
                     APPLY_Z_FIX) →
        e = Mkdir (OUT_DIR sample_dir)).
Proof.
  split; [reflexivity |].
  apply (empty_input_aborts sample_to_wgs84 sample_vshift sample_crs_eq
           sample_transform ascii_upper sample_dir empty_world APPLY_Z_FIX).
  reflexivity.
Defined.

Lemma missing_grid_aborts_witness :
  gtx_exists gridless_world = false ∧
  script sample_to_wgs84 sample_vshift sample_crs_eq sample_transform
    ascii_upper sample_dir gridless_world APPLY_Z_FIX
  = ([], SysExit (NoGeoid (GTX_PATH sample_dir))) ∧
  exit_status (result (script sample_to_wgs84 sample_vshift sample_crs_eq
                         sample_transform ascii_upper sample_dir gridless_world
                         APPLY_Z_FIX)) = 1%Z ∧
  (∀ e, e ∉ trace (script sample_to_wgs84 sample_vshift sample_crs_eq
                     sample_transform ascii_upper sample_dir gridless_world
                     APPLY_Z_FIX)).
Proof.
  split; [reflexivity |].
  apply (missing_grid_aborts sample_to_wgs84 sample_vshift sample_crs_eq
           sample_transform ascii_upper sample_dir gridless_world APPLY_Z_FIX).
  reflexivity.
Defined.

(** ** Witnesses of the further properties *)

Local Abbreviation sample_z_fix := (z_fix sample_to_wgs84 sample_vshift).
Local Abbreviation sample_convert w :=
  (convert sample_to_wgs84 sample_vshift sample_crs_eq sample_transform
     ascii_upper sample_dir w).
Local Abbreviation sample_script w :=
  (script sample_to_wgs84 sample_vshift sample_crs_eq sample_transform
     ascii_upper sample_dir w).
Local Abbreviation sample_normalize := (normalize_crs sample_crs_eq sample_transform).
Local Abbreviation sample_out_path := (out_path_of ascii_upper sample_dir).

Lemma sample_world_writes :
  ToFile ["home"; "gis"; "shp_output"; "ROADS.shp"] sample_written
  ∈ trace (sample_script sample_world APPLY_Z_FIX).
Proof. vm_compute. repeat constructor. Qed.

Lemma sample_world_reads :
  ReadFile ["home"; "gis"; "shp_input"; "a.b.shp"]
  ∈ trace (sample_script sample_world APPLY_Z_FIX).
Proof. vm_compute. repeat constructor. Qed.

Lemma z_fix_raises_without_triple_witness :
  handled sample_mixed = true ∧
  has_z sample_mixed = true ∧
  all_xyz sample_mixed = false ∧
  (result (sample_z_fix APPLY_Z_FIX sample_mixed) = Raised ValueError ∨
   result (sample_z_fix APPLY_Z_FIX sample_mixed) = Raised IndexError).
Proof.
  do 3 (split; [reflexivity |]).
  apply (z_fix_raises_without_triple sample_to_wgs84 sample_vshift sample_mixed);
    reflexivity.
Defined.

Lemma z_fix_linear_ring_becomes_line_witness :
  has_z sample_ring = true ∧
  all_xyz sample_ring = true ∧
  sample_z_fix APPLY_Z_FIX sample_ring
  = ([XYZ 0 0 1; XYZ 16384 0 1; XYZ 0 0 1] ≫= lookups sample_to_wgs84,
     Done (LineString (correct_part sample_to_wgs84 sample_vshift
                         [XYZ 0 0 1; XYZ 16384 0 1; XYZ 0 0 1]))) ∧
  type_of (LineString (correct_part sample_to_wgs84 sample_vshift
                         [XYZ 0 0 1; XYZ 16384 0 1; XYZ 0 0 1]))
  ≠ type_of sample_ring.
Proof.
  do 2 (split; [reflexivity |]).
  apply (z_fix_linear_ring_becomes_line sample_to_wgs84 sample_vshift
           [XYZ 0 0 1; XYZ 16384 0 1; XYZ 0 0 1]); reflexivity.
Defined.

Lemma z_fix_twice_adds_twice_witness :
  handled sample_line = true ∧
  has_z sample_line = true ∧
  all_xyz sample_line = true ∧
  no_empty_line sample_line = true ∧
  ∃ g' g'' : geometry,
    result (sample_z_fix APPLY_Z_FIX sample_line) = Done g' ∧
    result (sample_z_fix APPLY_Z_FIX g') = Done g'' ∧
    ∀ i j x y z, coord_at sample_line i j = Some (XYZ x y z) →
      has_z g' = true ∧
      coord_at g'' i j
      = Some (XYZ x y (z + undulation_at sample_to_wgs84 sample_vshift x y
                         + undulation_at sample_to_wgs84 sample_vshift x y)).
Proof.
  do 4 (split; [reflexivity |]).
  apply (z_fix_twice_adds_twice sample_to_wgs84 sample_vshift sample_line);
    reflexivity.
Defined.

Example z_fix_twice_sample :
  (g' ← sample_z_fix APPLY_Z_FIX sample_line; sample_z_fix APPLY_Z_FIX g').2
  = Done (LineString [XYZ 260096 4980736 51.25; XYZ 262144 5111808 54.25]).
Proof. vm_compute. reflexivity. Qed.

Lemma z_fix_raises_on_empty_line_witness :
  type_of sample_gap = CMultiLineString ∧
  has_z sample_gap = true ∧
  all_xyz sample_gap = true ∧
  no_empty_line sample_gap = false ∧
  sample_z_fix APPLY_Z_FIX sample_gap
  = (concat (parts sample_gap) ≫= lookups sample_to_wgs84,
     Raised EmptyPartError).
Proof.
  do 4 (split; [reflexivity |]).
  apply (z_fix_raises_on_empty_line sample_to_wgs84 sample_vshift sample_gap);
    reflexivity.
Defined.

(** [POINT Z EMPTY], and a point with a Z ordinate and a measure. *)
Example z_fix_point_z_empty :
  has_z (WithZ (Point None)) = true ∧
  sample_z_fix APPLY_Z_FIX (WithZ (Point None)) = ([], Raised IndexError).
Proof. split; reflexivity. Qed.

Example z_fix_point_zm :
  has_z (Point (Some (XYZM 1 2 3 4))) = true ∧
  sample_z_fix APPLY_Z_FIX (Point (Some (XYZM 1 2 3 4)))
  = ([], Raised ValueError).
Proof. split; reflexivity. Qed.

Lemma rename_keeps_names_distinct_witness :
  NoDup sample_record.*1 ∧
  (∀ name new, name ∈ sample_record.*1 →
     RENAME_FIELDS !! name = Some new → new ∉ sample_record.*1) ∧
  NoDup (rename sample_record RENAME_FIELDS).*1.
Proof.
  assert (Hnd : NoDup sample_record.*1).
  { refine (bool_decide_unpack _ _). by vm_compute. }
  assert (Hfree : ∀ name new, name ∈ sample_record.*1 →
            RENAME_FIELDS !! name = Some new → new ∉ sample_record.*1).
  { intros name new Hin Hkey Hnew.
    change (sample_record.*1) with ["l_linkid"; "Name"] in *.
    rewrite !elem_of_cons, elem_of_nil in Hin, Hnew.
    destruct Hin as [-> | [-> | []]]; vm_compute in Hkey;
      [| discriminate Hkey].
    injection Hkey as <-. destruct Hnew as [H | [H | []]]; discriminate H. }
  split; [exact Hnd |]. split; [exact Hfree |].
  apply (rename_keeps_names_distinct sample_record Hnd Hfree).
Defined.

Lemma rename_duplicates_target_witness :
  columns sample_gdf_twin !! 0 = Some ("id", [VInt 1]) ∧
  columns sample_gdf_twin !! 1 = Some ("ID", [VInt 2]) ∧
  RENAME_FIELDS !! "id" = Some "ID" ∧
  0 ≠ 1 ∧
  columns (rename_columns sample_gdf_twin) !! 0 = Some ("ID", [VInt 1]) ∧
  columns (rename_columns sample_gdf_twin) !! 1 = Some ("ID", [VInt 2]) ∧
  ¬ NoDup (columns (rename_columns sample_gdf_twin)).*1.
Proof.
  do 3 (split; [reflexivity |]). split; [discriminate |].
  apply (rename_duplicates_target sample_gdf_twin 0 1 "id" "ID"
           [VInt 1] [VInt 2]); [reflexivity.. | discriminate].
Defined.

Lemma out_path_clash_witness :
  joinpath (SRC_DIR sample_dir) "a.shp" ∈ glob_shp sample_dir clash_world ∧
  joinpath (SRC_DIR sample_dir) "A.shp" ∈ glob_shp sample_dir clash_world ∧
  (sample_out_path (joinpath (SRC_DIR sample_dir) "a.shp")
   = sample_out_path (joinpath (SRC_DIR sample_dir) "A.shp")
   ↔ ascii_upper (path_stem (joinpath (SRC_DIR sample_dir) "a.shp"))
     = ascii_upper (path_stem (joinpath (SRC_DIR sample_dir) "A.shp"))).
Proof.
  assert (Ha : joinpath (SRC_DIR sample_dir) "a.shp"
               ∈ glob_shp sample_dir clash_world)
    by (vm_compute; repeat constructor).
  assert (Hb : joinpath (SRC_DIR sample_dir) "A.shp"
               ∈ glob_shp sample_dir clash_world)
    by (vm_compute; repeat constructor).
  split; [exact Ha |]. split; [exact Hb |].
  apply (out_path_clash ascii_upper sample_dir clash_world _ _ Ha Hb).
Defined.

Example out_path_clash_sample :
  sample_out_path (joinpath (SRC_DIR sample_dir) "a.shp")
  = sample_out_path (joinpath (SRC_DIR sample_dir) "A.shp").
Proof. reflexivity. Qed.

Lemma written_layer_is_pipeline_witness :
  ToFile ["home"; "gis"; "shp_output"; "ROADS.shp"] sample_written
  ∈ trace (sample_script sample_world APPLY_Z_FIX) ∧
  ∃ p gdf0 gdf col,
    p ∈ glob_shp sample_dir sample_world ∧
    read_file sample_world p = Some gdf0 ∧
    sample_normalize gdf0 = ([], Done gdf) ∧
    result (mapM (z_fix_cell sample_to_wgs84 sample_vshift APPLY_Z_FIX)
              (geometry_col gdf)) = Done col ∧
    sample_written = rename_columns (set_geometry gdf col) ∧
    ["home"; "gis"; "shp_output"; "ROADS.shp"] = sample_out_path p.
Proof.
  split; [exact sample_world_writes |].
  apply (written_layer_is_pipeline sample_to_wgs84 sample_vshift sample_crs_eq
           sample_transform ascii_upper sample_dir sample_world APPLY_Z_FIX
           _ _ sample_world_writes).
Defined.

Lemma written_layer_keeps_features_witness :
  ToFile ["home"; "gis"; "shp_output"; "ROADS.shp"] sample_written
  ∈ trace (sample_script sample_world APPLY_Z_FIX) ∧
  ∃ p gdf0,
    p ∈ glob_shp sample_dir sample_world ∧
    read_file sample_world p = Some gdf0 ∧
    length (geometry_col sample_written) = length (geometry_col gdf0) ∧
    (columns sample_written).*2 = (columns gdf0).*2 ∧
    (columns sample_written).*1
    = rename_label RENAME_FIELDS <$> (columns gdf0).*1.
Proof.
  split; [exact sample_world_writes |].
  apply (written_layer_keeps_features sample_to_wgs84 sample_vshift
           sample_crs_eq sample_transform ascii_upper sample_dir sample_world
           APPLY_Z_FIX _ _ sample_world_writes).
Defined.

Lemma written_layer_in_target_crs_witness :
  ToFile ["home"; "gis"; "shp_output"; "ROADS.shp"] sample_written
  ∈ trace (sample_script sample_world APPLY_Z_FIX) ∧
  ∃ c, crs sample_written = Some c ∧
       (c = CRS_TARGET ∨ sample_crs_eq c CRS_TARGET = true).
Proof.
  split; [exact sample_world_writes |].
  apply (written_layer_in_target_crs sample_to_wgs84 sample_vshift
           sample_crs_eq sample_transform ascii_upper sample_dir sample_world
           APPLY_Z_FIX _ _ sample_world_writes).
Defined.

Lemma batch_stops_at_first_failure_witness :
  gtx_exists failing_world = true ∧
  glob_shp sample_dir failing_world
  = [joinpath (SRC_DIR sample_dir) "roads.shp"]
    ++ joinpath (SRC_DIR sample_dir) "bad.shp"
    :: [joinpath (SRC_DIR sample_dir) "later.shp"] ∧
  (∀ q, q ∈ [joinpath (SRC_DIR sample_dir) "roads.shp"] →
        result (sample_convert failing_world APPLY_Z_FIX q) = Done ()) ∧
  result (sample_convert failing_world APPLY_Z_FIX
            (joinpath (SRC_DIR sample_dir) "bad.shp")) ≠ Done () ∧
  result (sample_script failing_world APPLY_Z_FIX)
  = result (sample_convert failing_world APPLY_Z_FIX
              (joinpath (SRC_DIR sample_dir) "bad.shp")) ∧
  exit_status (result (sample_script failing_world APPLY_Z_FIX)) = 1%Z ∧
  trace (sample_script failing_world APPLY_Z_FIX)
  = Mkdir (OUT_DIR sample_dir)
    :: trace (for_each (sample_convert failing_world APPLY_Z_FIX)
                [joinpath (SRC_DIR sample_dir) "roads.shp"])
    ++ trace (sample_convert failing_world APPLY_Z_FIX
                (joinpath (SRC_DIR sample_dir) "bad.shp")).
Proof.
  assert (Hdone : ∀ q, q ∈ [joinpath (SRC_DIR sample_dir) "roads.shp"] →
            result (sample_convert failing_world APPLY_Z_FIX q) = Done ()).
  { intros q ->%list_elem_of_singleton. reflexivity. }
  assert (Hbad : result (sample_convert failing_world APPLY_Z_FIX
                           (joinpath (SRC_DIR sample_dir) "bad.shp")) ≠ Done ())
    by discriminate.
  split; [reflexivity |]. split; [reflexivity |].
  split; [exact Hdone |]. split; [exact Hbad |].
  apply (batch_stops_at_first_failure sample_to_wgs84 sample_vshift
           sample_crs_eq sample_transform ascii_upper sample_dir failing_world
           APPLY_Z_FIX [joinpath (SRC_DIR sample_dir) "roads.shp"]
           (joinpath (SRC_DIR sample_dir) "bad.shp")
           [joinpath (SRC_DIR sample_dir) "later.shp"]
           eq_refl eq_refl Hdone Hbad).
Defined.

Lemma reads_only_globbed_witness :
  ReadFile ["home"; "gis"; "shp_input"; "a.b.shp"]
  ∈ trace (sample_script sample_world APPLY_Z_FIX) ∧
  ["home"; "gis"; "shp_input"; "a.b.shp"] ∈ glob_shp sample_dir sample_world ∧
  ∃ parent name,
    ["home"; "gis"; "shp_input"; "a.b.shp"]
    = joinpath (joinpath parent "shp_input") name ∧
    name ∈ listdir sample_world (joinpath parent "shp_input") ∧
    matches_shp name = true ∧
    if existsb has_magic sample_dir
    then parent ∈ glob_dirs sample_world sample_dir
    else joinpath parent "shp_input" = SRC_DIR sample_dir.
Proof.
  split; [exact sample_world_reads |].
  apply (reads_only_globbed sample_to_wgs84 sample_vshift sample_crs_eq
           sample_transform ascii_upper sample_dir sample_world APPLY_Z_FIX
           _ sample_world_reads).
Defined.

(** With a wildcard character in the script directory, the files read
    are those of the directory it matches as a pattern, and the output
    goes to the script directory itself. *)
Example script_bracket_world :
  glob_shp bracket_dir bracket_world = [["home"; "gis1"; "shp_input"; "other.shp"]] ∧
  read_paths (trace (script sample_to_wgs84 sample_vshift sample_crs_eq
                       sample_transform ascii_upper bracket_dir bracket_world
                       APPLY_Z_FIX))
  = [["home"; "gis1"; "shp_input"; "other.shp"]] ∧
  written_paths (trace (script sample_to_wgs84 sample_vshift sample_crs_eq
                          sample_transform ascii_upper bracket_dir bracket_world
                          APPLY_Z_FIX))
  = [["home"; "gis[1]"; "shp_output"; "OTHER.shp"]].
Proof. split; [| split]; vm_compute; reflexivity. Qed.

Lemma normal_run_one_output_per_input_witness :
  result (sample_script sample_world APPLY_Z_FIX) = Done () ∧
  gtx_exists sample_world = true ∧
  glob_shp sample_dir sample_world ≠ [] ∧
  read_paths (trace (sample_script sample_world APPLY_Z_FIX))
  = glob_shp sample_dir sample_world ∧
  written_paths (trace (sample_script sample_world APPLY_Z_FIX))
  = sample_out_path <$> glob_shp sample_dir sample_world.
Proof.
  split; [reflexivity |].
  apply (normal_run_one_output_per_input sample_to_wgs84 sample_vshift
           sample_crs_eq sample_transform ascii_upper sample_dir sample_world
           APPLY_Z_FIX).
  reflexivity.
Defined.

Lemma normalize_crs_idempotent_witness :
  sample_crs_eq CRS_TARGET CRS_TARGET = true ∧
  sample_normalize sample_gdf_wkt ≫= sample_normalize
  = sample_normalize sample_gdf_wkt.
Proof.
  split; [reflexivity |].
  apply (normalize_crs_idempotent sample_crs_eq sample_transform sample_gdf_wkt).
  reflexivity.
Defined.
